(** * spamtx: the transaction-spam engine

    A shallow embedding of the Go sources of spamtx (configuration
    validation, the heavy-mode output count, the heavy-mode composer, the
    amount parser and the rate-limited run loop) together with the
    properties its specification states about them.

    Conventions.
    - Go's [uint64] values are integers in [Z] together with the explicit
      wrap-around of every arithmetic operation (module [U64]).
    - Go functions returning [error] return a value of [Res]; a Go panic is
      the third outcome [Panic].
    - The external collaborators (chain registry, keyring, node client) are
      a record of results, [World]; what the node answers at each attempt
      comes with the scheduler event that triggers the attempt. *)

From stdpp Require Import base numbers list strings gmap.
From Stdlib Require Import ZArith Lia String Ascii.

Open Scope string_scope.
Open Scope list_scope.
Open Scope Z_scope.

(** ** Machine integers *)

Module U64.
Definition modulus : Z := 2 ^ 64.
Definition in_range (z : Z) : Prop := 0 <= z < modulus.
Definition wrap (z : Z) : Z := z mod modulus.
Definition add (a b : Z) : Z := wrap (a + b).
Definition sub (a b : Z) : Z := wrap (a - b).
(** [/] on unsigned operands; the divisors used below are non-zero. *)
Definition div (a b : Z) : Z := a / b.
Definition rem (a b : Z) : Z := a mod b.
End U64.

Module I64.
(** Conversion [int64(x)] of a [uint64]: the same 64 bits, read as two's
    complement. *)
Definition of_uint64 (z : Z) : Z := if z <? 2 ^ 63 then z else z - 2 ^ 64.
End I64.

(** ** Errors and results *)

(** Go [error] values: [errors.New]/[fmt.Errorf] without a cause, and
    [fmt.Errorf("...: %w", err)] wrapping a cause. *)
Inductive error : Type :=
| errorsNew (msg : string)
| Errorf (msg : string) (cause : error)
| ErrorfCode (msg : string) (code : Z).

Inductive Res (A : Type) : Type :=
| Ok (a : A)
| Err (e : error)
| Panic (msg : string).
Arguments Ok {A} a.
Arguments Err {A} e.
Arguments Panic {A} msg.

Global Instance Res_ret : MRet Res := fun A a => Ok a.
Global Instance Res_bind : MBind Res := fun A B k r =>
  match r with
  | Ok a => k a
  | Err e => Err e
  | Panic m => Panic m
  end.

(** ** Configuration *)

(** Modelled from the spec: the [Config] struct of the revision that has
    heavy mode (its declaration, with the fields [Heavy] and
    [HeavyAddressCount]).  The spec lists, besides the fields of the
    earlier declaration, a heavy-mode flag (boolean) and an optional
    explicit heavy output count (unsigned); [calculateAddressCount] returns
    the latter as a [uint64]. *)
Record Config : Type := {
  Chain : string;
  Account : string;
  Fees : string;
  Memo : string;
  TPS : Z;
  GasLimit : Z;
  RPC : string;
  Heavy : bool;
  HeavyAddressCount : Z
}.

Definition Config_wf (config : Config) : Prop :=
  U64.in_range (TPS config) /\
  U64.in_range (GasLimit config) /\
  U64.in_range (HeavyAddressCount config).

(** [validateConfig]: [None] is Go's [nil]. *)
Definition validateConfig (config : Config) : option error :=
  if String.eqb (Chain config) "" then Some (errorsNew "chain name is required")
  else if String.eqb (Account config) "" then Some (errorsNew "account address is required")
  else if String.eqb (Fees config) "" then Some (errorsNew "fees are required")
  else if String.eqb (Memo config) "" then Some (errorsNew "memo is required")
  else if TPS config =? 0 then Some (errorsNew "tps must be greater than 0")
  else None.

(** ** Heavy-mode output count *)

(** The value of [estimatedCount := (config.GasLimit - 50000) / 15000],
    computed on [uint64]. *)
Definition estimatedCount (config : Config) : Z :=
  U64.div (U64.sub (GasLimit config) 50000) 15000.

Definition calculateAddressCount (config : Config) : Z :=
  if 0 <? HeavyAddressCount config then HeavyAddressCount config
  else if 0 <? GasLimit config then
    if 0 <? estimatedCount config then estimatedCount config else 10
  else 10.

(** The count the specification describes, in exact integer arithmetic:
    override, else [floor((gasLimit - 50000) / 15000)] when a gas limit is
    given and that value is positive, else 10. *)
Definition specAddressCount (override gasLimit : Z) : Z :=
  if 0 <? override then override
  else if (0 <? gasLimit) && (0 <? (gasLimit - 50000) / 15000)
       then (gasLimit - 50000) / 15000
       else 10.

(** ** Coins

    The parts of the Cosmos SDK ([types/coin.go], [cosmossdk.io/math]) that
    the composer calls.  [math.Int] is an arbitrary-precision integer whose
    operations panic beyond 256 bits; [Coins] is a slice of coins. *)

Module sdk.

Record Coin : Type := { Denom : string; Amount : Z }.
Definition Coins : Type := list Coin.

Definition MaxBitLen : Z := 256.

(** [Int.Quo]: truncated division, panics on a zero divisor. *)
Definition Int_Quo (i i2 : Z) : Res Z :=
    if i2 =? 0 then Panic "Division by zero" else Ok (Z.quot i i2).

(** [Int.Mul]: panics when the product needs more than [MaxBitLen] bits. *)
Definition Int_Mul (i i2 : Z) : Res Z :=
    if Z.abs (i * i2) <? 2 ^ MaxBitLen then Ok (i * i2) else Panic "Int overflow".

Definition is_letter (c : ascii) : bool :=
    let n := Z.of_N (N_of_ascii c) in
    ((65 <=? n) && (n <=? 90)) || ((97 <=? n) && (n <=? 122)).

Definition is_digit (c : ascii) : bool :=
    let n := Z.of_N (N_of_ascii c) in (48 <=? n) && (n <=? 57).

(** The characters [/ : . _ -] allowed after the first one of a denom. *)
Definition is_denom_punct (c : ascii) : bool :=
    let n := Z.of_N (N_of_ascii c) in
    (n =? 47) || (n =? 58) || (n =? 46) || (n =? 95) || (n =? 45).

Fixpoint all_chars (p : ascii -> bool) (s : string) : bool :=
    match s with
    | EmptyString => true
    | String c s' => p c && all_chars p s'
    end.

(** [ValidateDenom] with the default pattern
      [[a-zA-Z][a-zA-Z0-9/:._-]{2,127}]. *)
Definition ValidateDenom (denom : string) : bool :=
    match denom with
    | EmptyString => false
    | String c rest =>
        is_letter c
        && all_chars (fun x => is_letter x || is_digit x || is_denom_punct x) rest
        && (2 <=? Z.of_nat (String.length rest))
        && (Z.of_nat (String.length rest) <=? 127)
    end.

(** [NewCoin] panics when [Coin.Validate] fails: invalid denomination or
      negative amount. *)
Definition NewCoin (denom : string) (amount : Z) : Res Coin :=
    if negb (ValidateDenom denom) then Panic "invalid denom"
    else if amount <? 0 then Panic "negative coin amount"
    else Ok {| Denom := denom; Amount := amount |}.

Definition Coin_IsZero (coin : Coin) : bool := Amount coin =? 0.
Definition Coin_IsPositive (coin : Coin) : bool := 0 <? Amount coin.

(** [Coins.IsZero]: no coins, or all coins zero. *)
Fixpoint IsZero (coins : Coins) : bool :=
    match coins with
    | [] => true
    | coin :: rest => if negb (Coin_IsZero coin) then false else IsZero rest
    end.

(** [SafeQuoInt]/[QuoInt]: every coin is divided and truncated; a coin
      whose quotient is zero stays in the result ([{4A} / 8 = {0A}]). *)
Fixpoint QuoInt_coins (coins : Coins) (x : Z) : Res Coins :=
    match coins with
    | [] => Ok []
    | coin :: rest =>
        q ← Int_Quo (Amount coin) x;
        c ← NewCoin (Denom coin) q;
        res ← QuoInt_coins rest x;
        Ok (c :: res)
    end.

Definition QuoInt (coins : Coins) (x : Z) : Res Coins :=
    if x =? 0 then Panic "dividing by zero is an invalid operation on coins"
    else QuoInt_coins coins x.

Fixpoint MulInt_coins (coins : Coins) (x : Z) : Res Coins :=
    match coins with
    | [] => Ok []
    | coin :: rest =>
        p ← Int_Mul (Amount coin) x;
        c ← NewCoin (Denom coin) p;
        res ← MulInt_coins rest x;
        Ok (c :: res)
    end.

Definition MulInt (coins : Coins) (x : Z) : Res Coins :=
    if x =? 0 then Panic "multiplying by zero is an invalid operation on coins"
    else MulInt_coins coins x.

Definition removeZeroCoins (coins : Coins) : Coins :=
    List.filter (fun c => negb (Coin_IsZero c)) coins.

Fixpoint sort_insert (c : Coin) (sorted : Coins) : Coins :=
    match sorted with
    | [] => [c]
    | d :: rest =>
        if String.leb (Denom c) (Denom d) then c :: d :: rest
        else d :: sort_insert c rest
    end.

(** [Coins.Sort]: by denomination. *)
Definition Sort (coins : Coins) : Coins := foldr sort_insert [] coins.

(** The loop of [Coins.Validate] over the coins after the first. *)
Fixpoint Validate_rest (lowDenom : string) (coins : Coins) : bool :=
    match coins with
    | [] => true
    | coin :: rest =>
        ValidateDenom (Denom coin)
        && String.ltb lowDenom (Denom coin)
        && Coin_IsPositive coin
        && Validate_rest (Denom coin) rest
    end.

(** [Coins.Validate]: valid denominations, strictly increasing, positive
      amounts. *)
Definition Validate (coins : Coins) : bool :=
    match coins with
    | [] => true
    | first :: rest =>
        ValidateDenom (Denom first) && Coin_IsPositive first
        && Validate_rest (Denom first) rest
    end.

(** [NewCoins]: sanitize (drop zero coins, sort), then panic unless the
      set validates. *)
Definition NewCoins (coins : list Coin) : Res Coins :=
    let newCoins := Sort (removeZeroCoins coins) in
    if Validate newCoins then Ok newCoins else Panic "invalid coin set".

(** Amount of one denomination held by a coin list. *)
Fixpoint AmountOf (coins : Coins) (denom : string) : Z :=
    match coins with
    | [] => 0
    | coin :: rest =>
        (if String.eqb (Denom coin) denom then Amount coin else 0)
        + AmountOf rest denom
    end.

(** What the composer may assume of a parsed amount: denominations that
      validate and amounts that are non-negative [math.Int] values. *)
Definition Coin_wf (coin : Coin) : Prop :=
    ValidateDenom (Denom coin) = true /\ 0 <= Amount coin < 2 ^ MaxBitLen.

Definition Coins_wf (coins : Coins) : Prop := Forall Coin_wf coins.

(** A coin divided, and a coin multiplied, by a positive integer. *)
Definition quoCoin (x : Z) (coin : Coin) : Coin :=
  {| Denom := Denom coin; Amount := Amount coin / x |}.

Definition mulCoin (x : Z) (coin : Coin) : Coin :=
  {| Denom := Denom coin; Amount := Amount coin * x |}.

End sdk.

(** ** Bank messages *)

Record Input : Type := { in_Address : string; in_Coins : sdk.Coins }.
Record Output : Type := { out_Address : string; out_Coins : sdk.Coins }.

Inductive Msg : Type :=
| MsgSend (FromAddress ToAddress : string) (Amount : sdk.Coins)
| MsgMultiSend (Inputs : list Input) (Outputs : list Output).

(** What a list of outputs carries of one denomination, in total. *)
Definition outputsAmountOf (outputs : list Output) (denom : string) : Z :=
  foldr (fun o acc => sdk.AmountOf (out_Coins o) denom + acc) 0 outputs.

(** ** The heavy-mode composer *)

(** [sendHeavyTransaction], the computation of [amountPerOutput]: the
    split, and the one-unit substitute when the split is zero. *)
Definition heavyAmountPerOutput (outputCount : Z) (amount : sdk.Coins) : Res sdk.Coins :=
  amountPerOutput ← sdk.QuoInt amount outputCount;
  if sdk.IsZero amountPerOutput then
    match amount with
    | first :: _ =>
        one ← sdk.NewCoin (sdk.Denom first) 1;
        sdk.NewCoins [one]
    | [] => Ok amountPerOutput
    end
  else Ok amountPerOutput.

(** The largest allocation of the Go runtime on 64-bit platforms
    ([maxAlloc], 48 address bits), and the size of a [banktypes.Output]: a
    string header and a slice header. *)
Definition maxAlloc : Z := 2 ^ 48.
Definition sizeof_Output : Z := 40.

(** The largest number of outputs a slice can hold: 7036874417766. *)
Definition maxOutputs : Z := maxAlloc / sizeof_Output.

(** [make([]banktypes.Output, len)] for a [uint64] length: the runtime
    panics when the length does not fit an [int] or the slice would be
    larger than [maxAlloc]; otherwise the slice holds [len] zero values
    (memory below that limit is taken to be available). *)
Definition make_Outputs (len : Z) : Res (list Output) :=
  if (2 ^ 63 <=? len) || (maxAlloc <? sizeof_Output * len)
  then Panic "runtime error: makeslice: len out of range"
  else Ok (replicate (Z.to_nat len) {| out_Address := ""; out_Coins := [] |}).

(** [sendHeavyTransaction], from [outputCount := ...] to the construction
    of [multiSendMsg]; the [for] loop assigns every element of the slice. *)
Definition heavyMultiSend (config : Config) (amount : sdk.Coins) (accountAddr : string) : Res Msg :=
  let outputCount := calculateAddressCount config in
  amountPerOutput ← heavyAmountPerOutput outputCount amount;
  totalOutput ← sdk.MulInt amountPerOutput outputCount;
  let inputs := [ {| in_Address := accountAddr; in_Coins := totalOutput |} ] in
  outputs ← make_Outputs outputCount;
  let outputs :=
    map (fun _ => {| out_Address := accountAddr; out_Coins := amountPerOutput |}) outputs in
  Ok (MsgMultiSend inputs outputs).

(** The heavy-mode output slice of a configuration can be allocated. *)
Definition heavy_allocatable (config : Config) : Prop :=
  Heavy config = true -> calculateAddressCount config <= maxOutputs.

(** ** The collaborators of the engine *)

Record TxOptions : Type := { opt_Memo : string; opt_Fees : string; opt_GasLimit : Z }.

(** Answer of the node to the account query: what [UnpackAny] followed by
    [GetSequence] yields from it. *)
Record QueryAccountResponse : Type := { resp_sequence : Res Z }.

(** Everything outside the repository that the engine consults before the
    loop: the chain registry behind [getChainInfo], the keyring, the node
    client and the SDK's coin parser.  [w_queryAccount n] is the node's
    answer to the [n]-th account query of the run. *)
Record World : Type := {
  w_getChainInfo : string -> Res (string * string);
  w_getKeyringHome : Res string;
  w_cosmosclientNew : string -> string -> string -> string -> Res unit;
  w_clientAccount : string -> Res unit;
  w_accountAddress : string -> Res string;
  w_queryAccount : nat -> string -> Res QueryAccountResponse;
  w_ParseCoinsNormalized : string -> Res sdk.Coins
}.

(** What the client does with one submission: [CreateTxWithOptions] fails,
    [BroadcastAsync] fails (transport error or timeout), or the node
    responds with a code and a hash. *)
Inductive SubmitResult : Type :=
| CreateTxFails (e : error)
| BroadcastFails (e : error)
| Responded (Code : Z) (TxHash : string).

(** One choice of the loop's [select]: a pulse of the ticker, with what the
    client will do with the submission it triggers, or the cancellation of
    the context. *)
Inductive Event : Type :=
| Tick (r : SubmitResult)
| Done.

Inductive LogLine : Type :=
| LogCustomRPC (rpcEndpoint : string)
| LogRegistryRPC (rpcEndpoint : string)
| LogCurrentSequence (sequence : Z)
| LogSendFailed (err : error)
| LogBroadcasted (txNum : Z) (TxHash memo : string)
| LogHeavyBroadcasted (txNum : Z) (TxHash : string) (outputCount : Z) (memo : string).

Inductive PrintLine : Type :=
| PrintSent (txCount tps : Z)
| PrintTotal (txCount : Z).

(** The observable trace of a run.  [EAttempt] records one call of
    [sendTransaction] or [sendHeavyTransaction] made by the loop: its
    [txNum] and [sequence] arguments and what it returned; it follows the
    effects of the call itself. *)
Inductive Effect : Type :=
| EVerifyAccountQuery (address : string)
| EFetchSequenceQuery (address : string)
| ETickerStart (interval : Z)
| ETickerStop
| ECreateTx (opts : TxOptions) (msg : Msg)
| EBroadcast (sequence : Z)
| EAttempt (heavy : bool) (txNum sequence : Z) (result : Res unit)
| ELog (line : LogLine)
| EPrint (line : PrintLine).

(** Computations that leave a trace. *)
Definition M (A : Type) : Type := (list Effect * Res A)%type.

Global Instance M_ret : MRet M := fun A a => ([], Ok a).
Global Instance M_bind : MBind M := fun A B k m =>
  match m with
  | (t, Ok a) => let r := k a in (t ++ r.1, r.2)
  | (t, Err e) => (t, Err e)
  | (t, Panic msg) => (t, Panic msg)
  end.

Definition lift {A} (r : Res A) : M A := ([], r).
Definition emit (e : Effect) : M unit := ([e], Ok tt).

(** [if err != nil { return fmt.Errorf(msg + ": %w", err) }] *)
Definition wrapErr {A} (msg : string) (m : M A) : M A :=
  match m with
  | (t, Err e) => (t, Err (Errorf msg e))
  | other => other
  end.

Definition time_Second : Z := 1000000000.

(** [time.Second / time.Duration(tps)]: signed division, which panics on
    a zero divisor. *)
Definition tickerInterval (tps : Z) : Res Z :=
  let d := I64.of_uint64 tps in
  if d =? 0 then Panic "integer divide by zero" else Ok (Z.quot time_Second d).

(** [time.NewTicker] panics unless the interval is positive. *)
Definition NewTicker (d : Z) : M unit :=
  if d <=? 0 then lift (Panic "non-positive interval for NewTicker")
  else emit (ETickerStart d).

Definition CreateTxWithOptions (r : SubmitResult) (opts : TxOptions) (msg : Msg) : M unit :=
  ([ECreateTx opts msg],
   match r with
   | CreateTxFails e => Err e
   | _ => Ok tt
   end).

Definition BroadcastAsync (r : SubmitResult) (sequence : Z) : M (Z * string) :=
  ([EBroadcast sequence],
   match r with
   | Responded Code TxHash => Ok (Code, TxHash)
   | BroadcastFails e => Err e
   | CreateTxFails e => Err e
   end).

(** ** The engine *)

Definition parseAmount (w : World) (amountStr : string) : Res sdk.Coins :=
  if String.eqb amountStr "" then Err (errorsNew "amount string cannot be empty")
  else
    match w_ParseCoinsNormalized w amountStr with
    | Ok coins =>
        if sdk.IsZero coins then Err (errorsNew "amount must be greater than zero")
        else Ok coins
    | Err err => Err (Errorf "failed to parse coins" err)
    | Panic msg => Panic msg
    end.

Definition verifyAccountExists (w : World) (address : string) : M unit :=
  _ ← emit (EVerifyAccountQuery address);
  _ ← wrapErr "account not found on blockchain - please fund this account first"
        (lift (w_queryAccount w 0%nat address));
  mret tt.

Definition fetchAccountSequence (w : World) (address : string) : M Z :=
  _ ← emit (EFetchSequenceQuery address);
  resp ← wrapErr "failed to query account" (lift (w_queryAccount w 1%nat address));
  wrapErr "failed to unpack account" (lift (resp_sequence resp)).

Definition sendTransaction (w : World) (config : Config) (amount : sdk.Coins)
    (txNum : Z) (addressPrefix memo : string) (sequence : Z) (r : SubmitResult) : M unit :=
  accountAddr ← wrapErr "failed to get account address" (lift (w_accountAddress w addressPrefix));
  let bankSendMsg := MsgSend accountAddr accountAddr amount in
  let opts := {| opt_Memo := memo; opt_Fees := Fees config; opt_GasLimit := GasLimit config |} in
  _ ← wrapErr "failed to create bank send transaction" (CreateTxWithOptions r opts bankSendMsg);
  response ← wrapErr "failed to broadcast transaction" (BroadcastAsync r sequence);
  if negb (response.1 =? 0)
  then lift (Err (ErrorfCode "transaction failed with code" response.1))
  else if U64.rem txNum 100 =? 0
  then emit (ELog (LogBroadcasted txNum response.2 (Memo config)))
  else mret tt.

Definition sendHeavyTransaction (w : World) (config : Config) (amount : sdk.Coins)
    (txNum : Z) (addressPrefix memo : string) (sequence : Z) (r : SubmitResult) : M unit :=
  accountAddr ← wrapErr "failed to get account address" (lift (w_accountAddress w addressPrefix));
  let outputCount := calculateAddressCount config in
  multiSendMsg ← lift (heavyMultiSend config amount accountAddr);
  let opts := {| opt_Memo := memo; opt_Fees := Fees config; opt_GasLimit := GasLimit config |} in
  _ ← wrapErr "failed to create multi-send transaction" (CreateTxWithOptions r opts multiSendMsg);
  response ← wrapErr "failed to broadcast transaction" (BroadcastAsync r sequence);
  if negb (response.1 =? 0)
  then lift (Err (ErrorfCode "transaction failed with code" response.1))
  else if U64.rem txNum 100 =? 0
  then emit (ELog (LogHeavyBroadcasted txNum response.2 outputCount (Memo config)))
  else mret tt.

(** How a run stands after the events given to it: still waiting in the
    [select], returned (with Go's [error], [None] for [nil]), or stopped by
    a panic. *)
Inductive Status : Type :=
| Running
| Returned (err : option error)
| Panicked (msg : string).

Definition after (t : list Effect) (r : list Effect * Status) : list Effect * Status :=
  (t ++ r.1, r.2).

(** The [for { select { ... } }] of [spamTransactions].  [sequence] is the
    base fetched before the loop, [txCount] the loop's counter. *)
Fixpoint spamLoop (w : World) (config : Config) (amount : sdk.Coins)
    (bech32Prefix : string) (sequence txCount : Z) (events : list Event)
    : list Effect * Status :=
  match events with
  | [] => ([], Running)
  | Done :: _ => ([EPrint (PrintTotal txCount); ETickerStop], Returned None)
  | Tick r :: events' =>
      let send := if Heavy config then sendHeavyTransaction else sendTransaction in
      let call := send w config amount txCount bech32Prefix (Memo config)
                       (U64.add sequence txCount) r in
      let attempt := EAttempt (Heavy config) txCount (U64.add sequence txCount) call.2 in
      match call.2 with
      | Err err =>
          after (call.1 ++ [attempt; ELog (LogSendFailed err)])
                (spamLoop w config amount bech32Prefix sequence txCount events')
      | Panic msg => (call.1 ++ [attempt; ETickerStop], Panicked msg)
      | Ok _ =>
          let txCount' := U64.add txCount 1 in
          if TPS config =? 0
          then (call.1 ++ [attempt; ETickerStop], Panicked "integer divide by zero")
          else
            let report :=
              if U64.rem txCount' (TPS config) =? 0
              then [EPrint (PrintSent txCount' (TPS config))] else [] in
            after (call.1 ++ attempt :: report)
                  (spamLoop w config amount bech32Prefix sequence txCount' events')
      end
  end.

(** What the part of [spamTransactions] before the loop hands to it. *)
Record LoopInputs : Type := {
  li_bech32Prefix : string;
  li_sequence : Z;
  li_amount : sdk.Coins
}.

(** [spamTransactions] up to and including the start of the ticker. *)
Definition spamPrelude (w : World) (config : Config) : M LoopInputs :=
  endpoints ←
    (if negb (String.eqb (RPC config) "")
     then
       _ ← emit (ELog (LogCustomRPC (RPC config)));
       info ← wrapErr "failed to get chain info for bech32 prefix"
                (lift (w_getChainInfo w (Chain config)));
       mret (RPC config, info.2)
     else
       info ← wrapErr "failed to get chain info" (lift (w_getChainInfo w (Chain config)));
       _ ← emit (ELog (LogRegistryRPC info.1));
       mret info);
  let rpcEndpoint := endpoints.1 in
  let bech32Prefix := endpoints.2 in
  keyringDir ← wrapErr "failed to get keyring home" (lift (w_getKeyringHome w));
  _ ← wrapErr "failed to create cosmos client"
        (lift (w_cosmosclientNew w rpcEndpoint (Fees config) bech32Prefix keyringDir));
  _ ← wrapErr "failed to get account from cosmos client keyring"
        (lift (w_clientAccount w (Account config)));
  accountAddr ← wrapErr "failed to get account from keyring"
                  (lift (w_accountAddress w bech32Prefix));
  _ ← wrapErr "account verification failed" (verifyAccountExists w accountAddr);
  sequence ← wrapErr "failed to fetch account sequence" (fetchAccountSequence w accountAddr);
  _ ← emit (ELog (LogCurrentSequence sequence));
  amount ← wrapErr "failed to parse fees as amount" (lift (parseAmount w (Fees config)));
  interval ← lift (tickerInterval (TPS config));
  _ ← NewTicker interval;
  mret {| li_bech32Prefix := bech32Prefix; li_sequence := sequence; li_amount := amount |}.

Definition spamTransactions (w : World) (config : Config) (events : list Event)
    : list Effect * Status :=
  match spamPrelude w config with
  | (t, Ok li) =>
      after t (spamLoop w config (li_amount li) (li_bech32Prefix li) (li_sequence li) 0 events)
  | (t, Err err) => (t, Returned (Some err))
  | (t, Panic msg) => (t, Panicked msg)
  end.

Definition withChain (config : Config) (chain : string) : Config :=
  {| Chain := chain; Account := Account config; Fees := Fees config; Memo := Memo config;
     TPS := TPS config; GasLimit := GasLimit config; RPC := RPC config;
     Heavy := Heavy config; HeavyAddressCount := HeavyAddressCount config |}.

(** [RunE] of [spamCmd]: the chain argument is stored, the configuration
    validated, and only then the engine started. *)
Definition spamCmd_RunE (w : World) (config : Config) (chain : string) (events : list Event)
    : list Effect * Status :=
  let config := withChain config chain in
  match validateConfig config with
  | Some err => ([], Returned (Some err))
  | None => spamTransactions w config events
  end.

(** ** Reading a trace *)

Record Attempt : Type := {
  att_heavy : bool;
  att_txNum : Z;
  att_sequence : Z;
  att_result : Res unit
}.

Definition attemptOf (e : Effect) : option Attempt :=
  match e with
  | EAttempt heavy txNum sequence result =>
      Some {| att_heavy := heavy; att_txNum := txNum;
              att_sequence := sequence; att_result := result |}
  | _ => None
  end.

(** The attempts of a run, in order. *)
Definition attempts (t : list Effect) : list Attempt := omap attemptOf t.

(** An attempt is accepted when the send function returned [nil]. *)
Definition accepted (a : Attempt) : bool :=
  match att_result a with
  | Ok _ => true
  | _ => false
  end.

Definition acceptedCount (l : list Attempt) : nat := List.length (List.filter accepted l).

Definition isFetch (e : Effect) : bool :=
  match e with
  | EFetchSequenceQuery _ => true
  | _ => false
  end.

(** The queries for the account sequence made during a run. *)
Definition fetches (t : list Effect) : list Effect := List.filter isFetch t.

Definition isSubmission (e : Effect) : bool :=
  match e with
  | ECreateTx _ _ | EBroadcast _ | EAttempt _ _ _ _ => true
  | _ => false
  end.

(** Everything a run did towards submitting a transaction. *)
Definition submissions (t : list Effect) : list Effect := List.filter isSubmission t.

Definition sampleLogOf (e : Effect) : option LogLine :=
  match e with
  | ELog (LogBroadcasted txNum TxHash memo) => Some (LogBroadcasted txNum TxHash memo)
  | ELog (LogHeavyBroadcasted txNum TxHash outputCount memo) =>
      Some (LogHeavyBroadcasted txNum TxHash outputCount memo)
  | _ => None
  end.

(** The sampled "broadcasted with hash ..." lines of a trace. *)
Definition sampleLogs (t : list Effect) : list LogLine := omap sampleLogOf t.

(** The base sequence a run hands to its loop, when it gets that far. *)
Definition baseSequence (w : World) (config : Config) : option Z :=
  match (spamPrelude w config).2 with
  | Ok li => Some (li_sequence li)
  | _ => None
  end.

(** The collaborators behave as their types promise: sequence numbers are
    [uint64] values and parsed coins are well formed. *)
Definition World_wf (w : World) : Prop :=
  (forall n address resp sequence,
      w_queryAccount w n address = Ok resp ->
      resp_sequence resp = Ok sequence -> U64.in_range sequence) /\
  (forall s coins, w_ParseCoinsNormalized w s = Ok coins -> sdk.Coins_wf coins).

(** ** Sample data *)

(** The split with the shares that truncate to zero dropped: what the
    outputs would carry if zero shares did not reach them. *)
Definition positiveShares (outputCount : Z) (amount : sdk.Coins) : sdk.Coins :=
  List.filter sdk.Coin_IsPositive (map (sdk.quoCoin outputCount) amount).

Definition uatom (n : Z) : sdk.Coin := {| sdk.Denom := "uatom"; sdk.Amount := n |}.
Definition stake (n : Z) : sdk.Coin := {| sdk.Denom := "stake"; sdk.Amount := n |}.

(** A heavy-mode configuration with the given override and gas limit. *)
Definition heavyConfig (override gasLimit : Z) : Config :=
  {| Chain := "cosmoshub"; Account := "alice"; Fees := "1000uatom"; Memo := "spam test";
     TPS := 5; GasLimit := gasLimit; RPC := "";
     Heavy := true; HeavyAddressCount := override |}.

(** A configuration whose rate is zero. *)
Definition zeroRateConfig : Config :=
  {| Chain := "cosmoshub"; Account := "alice"; Fees := "1000uatom"; Memo := "spam test";
     TPS := 0; GasLimit := 0; RPC := "";
     Heavy := false; HeavyAddressCount := 0 |}.

Definition simpleConfig : Config :=
  {| Chain := "cosmoshub"; Account := "alice"; Fees := "1000uatom"; Memo := "spam test";
     TPS := 5; GasLimit := 0; RPC := "";
     Heavy := false; HeavyAddressCount := 0 |}.

(** The answers of the SDK's parser on the fee strings used below (the
    result is sorted by denomination; zero coins are removed). *)
Definition sampleParse (s : string) : Res sdk.Coins :=
  if String.eqb s "1000uatom" then Ok [uatom 1000]
  else if String.eqb s "5uatom" then Ok [uatom 5]
  else if String.eqb s "1000uatom,5stake" then Ok [stake 5; uatom 1000]
  else if String.eqb s "0uatom" then Ok []
  else Err (errorsNew "invalid decimal coin expression").

(** A world in which every step before the loop succeeds and the account
    is at sequence 7. *)
Definition sampleWorld : World :=
  {| w_getChainInfo := fun _ => Ok ("https://rpc.cosmos.example:443", "cosmos");
     w_getKeyringHome := Ok "/home/alice/.spamtx";
     w_cosmosclientNew := fun _ _ _ _ => Ok tt;
     w_clientAccount := fun _ => Ok tt;
     w_accountAddress := fun _ => Ok "cosmos1alice";
     w_queryAccount := fun _ _ => Ok {| resp_sequence := Ok 7 |};
     w_ParseCoinsNormalized := sampleParse |}.

(** The same world with the account at the last [uint64] sequence. *)
Definition lastSequenceWorld : World :=
  {| w_getChainInfo := w_getChainInfo sampleWorld;
     w_getKeyringHome := w_getKeyringHome sampleWorld;
     w_cosmosclientNew := w_cosmosclientNew sampleWorld;
     w_clientAccount := w_clientAccount sampleWorld;
     w_accountAddress := w_accountAddress sampleWorld;
     w_queryAccount := fun _ _ => Ok {| resp_sequence := Ok (U64.modulus - 1) |};
     w_ParseCoinsNormalized := sampleParse |}.

Definition rejected : SubmitResult := Responded 5 "".
Definition timedOut : SubmitResult := BroadcastFails (errorsNew "context deadline exceeded").
Definition acceptedAs (hash : string) : SubmitResult := Responded 0 hash.

(** Four pulses: a rejection, an acceptance, a timeout, an acceptance. *)
Definition sampleTicks : list Event :=
  [Tick rejected; Tick (acceptedAs "A1"); Tick timedOut; Tick (acceptedAs "B2")].

(** What the prelude hands to the loop in [sampleWorld]. *)
Definition sampleInputs : LoopInputs :=
  {| li_bech32Prefix := "cosmos"; li_sequence := 7; li_amount := [uatom 1000] |}.

(** ** The keyring (keyring.go) *)

(** [strings.Contains]: some suffix of [s] starts with [substr]. *)
Fixpoint strings_Contains (s substr : string) : bool :=
  String.prefix substr s
  || match s with
     | EmptyString => false
     | String _ rest => strings_Contains rest substr
     end.

(** [validateAccountName]; [len] is the length in bytes. *)
Definition validateAccountName (name : string) : option error :=
  if String.eqb name "" then Some (errorsNew "account name cannot be empty")
  else if strings_Contains name " "
  then Some (errorsNew "account name cannot contain spaces")
  else if (String.length name <? 2)%nat
  then Some (errorsNew "account name must be at least 2 characters long")
  else if (50 <? String.length name)%nat
  then Some (errorsNew "account name must be less than 50 characters long")
  else None.

(** A [cosmosaccount.Account]: its name, and the address it yields for a
    bech32 prefix. *)
Record cosmosaccount_Account : Type := {
  acc_Name : string;
  acc_Address : string -> string + error
}.

(** The errors of the account registry: the one [errors.As] recognises as
    [*cosmosaccount.AccountDoesNotExistError], and all others. *)
Inductive RegistryError : Type :=
| AccountDoesNotExistError (name : string)
| RegistryFailure (err : error).

Definition errors_As_AccountDoesNotExist (err : RegistryError) : bool :=
  match err with
  | AccountDoesNotExistError _ => true
  | RegistryFailure _ => false
  end.

(** The registry error as the cause of a wrapping [fmt.Errorf]. *)
Definition registryCause (err : RegistryError) : error :=
  match err with
  | AccountDoesNotExistError _ => errorsNew "account does not exist"
  | RegistryFailure e => e
  end.

(** The operations of [cosmosaccount.Registry] that keyring.go calls, over
    the state [K] of the keyring behind it. *)
Class Registry (K : Type) : Type := {
  reg_GetByName : K -> string -> cosmosaccount_Account + RegistryError;
  reg_Create : K -> string -> K * ((cosmosaccount_Account * string) + RegistryError);
  reg_Import : K -> string -> string -> string -> K * (cosmosaccount_Account + RegistryError);
  reg_DeleteByName : K -> string -> K * option RegistryError;
  reg_List : K -> list cosmosaccount_Account + RegistryError
}.

Inductive RegistryCall : Type :=
| CallGetByName (name : string)
| CallCreate (name : string)
| CallImport (name secret passphrase : string)
| CallDeleteByName (name : string)
| CallList.

(** The lines keyring.go prints. *)
Inductive KeyringLine : Type :=
| LineNotFoundCreating (accountName : string)
| LineCreated (accountName : string)
| LineMnemonic (mnemonic : string)
| LineSaveMnemonic
| LineNoAccounts
| LineFound (count : nat)
| LineAccount (number : nat) (name address : string)
| LineAccountAddressError (number : nat) (name : string) (err : error)
| LineImported (name address : string)
| LineDeleted (name : string).

Inductive KeyringEffect : Type :=
| KCall (c : RegistryCall)
| KPrint (line : KeyringLine).

(** Keyring code: it reads and changes the keyring, leaves a trace of
    registry calls and printed lines, and returns a value or an error. *)
Definition KM (K A : Type) : Type := K -> K * list KeyringEffect * (A + error).

Global Instance KM_ret K : MRet (KM K) := fun A a k => (k, [], inl a).
Global Instance KM_bind K : MBind (KM K) := fun A B f m k =>
  match m k with
  | (k1, t1, inl a) =>
      match f a k1 with
      | (k2, t2, r) => (k2, t1 ++ t2, r)
      end
  | (k1, t1, inr err) => (k1, t1, inr err)
  end.

Definition kfail {K A} (err : error) : KM K A := fun k => (k, [], inr err).
Definition kprint {K} (line : KeyringLine) : KM K unit := fun k => (k, [KPrint line], inl tt).

Definition callGetByName `{Registry K} (name : string) : KM K (cosmosaccount_Account + RegistryError) :=
  fun k => (k, [KCall (CallGetByName name)], inl (reg_GetByName k name)).

Definition callCreate `{Registry K} (name : string)
    : KM K ((cosmosaccount_Account * string) + RegistryError) :=
  fun k => ((reg_Create k name).1, [KCall (CallCreate name)], inl (reg_Create k name).2).

Definition callImport `{Registry K} (name secret passphrase : string)
    : KM K (cosmosaccount_Account + RegistryError) :=
  fun k => ((reg_Import k name secret passphrase).1,
            [KCall (CallImport name secret passphrase)],
            inl (reg_Import k name secret passphrase).2).

Definition callDeleteByName `{Registry K} (name : string) : KM K (option RegistryError) :=
  fun k => ((reg_DeleteByName k name).1, [KCall (CallDeleteByName name)],
            inl (reg_DeleteByName k name).2).

Definition callList `{Registry K} : KM K (list cosmosaccount_Account + RegistryError) :=
  fun k => (k, [KCall CallList], inl (reg_List k)).

(** [getOrCreateAccount]: the account and whether it was created. *)
Definition getOrCreateAccount `{Registry K} (accountName : string) : KM K (cosmosaccount_Account * bool) :=
  match validateAccountName accountName with
  | Some err => kfail err
  | None =>
      found ← callGetByName accountName;
      match found with
      | inl account => mret (account, false)
      | inr err =>
          if errors_As_AccountDoesNotExist err then
            _ ← kprint (LineNotFoundCreating accountName);
            created ← callCreate accountName;
            match created with
            | inr err' => kfail (Errorf "failed to create account" (registryCause err'))
            | inl (account, mnemonic) =>
                _ ← kprint (LineCreated accountName);
                _ ← kprint (LineMnemonic mnemonic);
                _ ← kprint LineSaveMnemonic;
                mret (account, true)
            end
          else kfail (Errorf "failed to get account" (registryCause err))
      end
  end.

(** The [for i, account := range accounts] of [listAccounts], from index
    [i]. *)
Fixpoint listAccounts_lines (bech32Prefix : string) (i : nat) (accounts : list cosmosaccount_Account)
    : list KeyringLine :=
  match accounts with
  | [] => []
  | account :: rest =>
      match acc_Address account bech32Prefix with
      | inr err => LineAccountAddressError (i + 1) (acc_Name account) err
      | inl address => LineAccount (i + 1) (acc_Name account) address
      end :: listAccounts_lines bech32Prefix (S i) rest
  end.

Definition listAccounts `{Registry K} (bech32Prefix : string) : KM K unit :=
  listed ← callList;
  match listed with
  | inr err => kfail (Errorf "failed to list accounts" (registryCause err))
  | inl accounts =>
      if (List.length accounts =? 0)%nat then kprint LineNoAccounts
      else
        fun k => (k, map KPrint (LineFound (List.length accounts)
                                  :: listAccounts_lines bech32Prefix 0 accounts), inl tt)
  end.

Definition importAccount `{Registry K} (name secret passphrase bech32prefix : string)
    : KM K unit :=
  match validateAccountName name with
  | Some err => kfail err
  | None =>
      if String.eqb secret ""
      then kfail (errorsNew "secret (mnemonic or private key) cannot be empty")
      else
        imported ← callImport name secret passphrase;
        match imported with
        | inr err => kfail (Errorf "failed to import account" (registryCause err))
        | inl account =>
            match acc_Address account bech32prefix with
            | inr err => kfail (Errorf "failed to get account address" err)
            | inl address => kprint (LineImported name address)
            end
        end
  end.

Definition deleteAccount `{Registry K} (name : string) : KM K unit :=
  match validateAccountName name with
  | Some err => kfail err
  | None =>
      found ← callGetByName name;
      match found with
      | inr err =>
          if errors_As_AccountDoesNotExist err
          then kfail (errorsNew "account does not exist")
          else kfail (Errorf "failed to check account existence" (registryCause err))
      | inl _ =>
          deleted ← callDeleteByName name;
          match deleted with
          | Some err => kfail (Errorf "failed to delete account" (registryCause err))
          | None => kprint (LineDeleted name)
          end
      end
  end.

(** What keyring code may assume of a registry: an account just created,
    or imported, is found under its name, and one just deleted is not. *)
Class RegistryLaws (K : Type) `{Registry K} : Prop := {
  create_then_get : forall k name k' account mnemonic,
    reg_Create k name = (k', inl (account, mnemonic)) ->
    reg_GetByName k' name = inl account;
  import_then_get : forall k name secret passphrase k' account,
    reg_Import k name secret passphrase = (k', inl account) ->
    reg_GetByName k' name = inl account;
  delete_then_get : forall k name k',
    reg_DeleteByName k name = (k', None) ->
    exists n, reg_GetByName k' name = inr (AccountDoesNotExistError n)
}.

(** The registry calls and the printed lines of a trace. *)
Definition registryCalls (t : list KeyringEffect) : list RegistryCall :=
  omap (fun e => match e with KCall c => Some c | KPrint _ => None end) t.

Definition printedLines (t : list KeyringEffect) : list KeyringLine :=
  omap (fun e => match e with KPrint l => Some l | KCall _ => None end) t.

(** ** The chain registry behind [getChainInfo] *)

(** The parts of the registry's chain record that [getChainInfo] reads
    ([chain.APIs.RPC[i].Address], [chain.Bech32Prefix]); the declarations
    themselves, like [NewChainRegistry], [FetchChains] and [EnrichChain], are
    parameters here. *)
Record RPCEndpoint : Type := { rpc_Address : string }.

Record ChainInfo : Type := {
  chain_RPC : list RPCEndpoint;
  chain_Bech32Prefix : string
}.

(** [FetchChains] fails or fills the map [registry.Chains]; [EnrichChain]
    fails or completes a chain record. *)
Record ChainRegistry : Type := {
  cr_FetchChains : option error;
  cr_Chains : gmap string ChainInfo;
  cr_EnrichChain : ChainInfo -> ChainInfo + error
}.

(** [getChainInfo]: Go's three results. *)
Definition getChainInfo (registry : ChainRegistry) (chainName : string)
    : string * string * option error :=
  match cr_FetchChains registry with
  | Some err => ("", "", Some (Errorf "failed to fetch chains" err))
  | None =>
      match cr_Chains registry !! chainName with
      | None => ("", "", Some (errorsNew "chain not found in registry"))
      | Some chain =>
          match cr_EnrichChain registry chain with
          | inr err => ("", "", Some (Errorf "failed to enrich chain" err))
          | inl chain =>
              match chain_RPC chain with
              | [] => ("", "", Some (errorsNew "no RPC endpoints found for chain"))
              | first :: _ =>
                  let rpcEndpoint := rpc_Address first in
                  let bech32Prefix := chain_Bech32Prefix chain in
                  if String.eqb bech32Prefix ""
                  then ("", "", Some (errorsNew "no bech32 prefix found for chain"))
                  else (rpcEndpoint, bech32Prefix, None)
              end
          end
      end
  end.

(** What [initializeKeyring] consults: the chain registry, the keyring
    home ([getKeyringHome]) and [cosmosaccount.New], given the home and the
    bech32 prefix. *)
Record KeyringWorld (K : Type) : Type := {
  kw_chains : ChainRegistry;
  kw_getKeyringHome : string + error;
  kw_cosmosaccountNew : string -> string -> K + error
}.
Arguments kw_chains {K} _.
Arguments kw_getKeyringHome {K} _.
Arguments kw_cosmosaccountNew {K} _ _ _.

(** [initializeKeyring]: the registry ([None] for the zero value), the
    prefix and the error. *)
Definition initializeKeyring {K} (kw : KeyringWorld K) (chainName : string)
    : option K * string * option error :=
  if String.eqb chainName "" then (None, "", Some (errorsNew "chain name cannot be empty"))
  else
    match getChainInfo (kw_chains kw) chainName with
    | (_, _, Some err) => (None, "", Some (Errorf "failed to get chain info" err))
    | (_, bech32Prefix, None) =>
        match kw_getKeyringHome kw with
        | inr err => (None, "", Some (Errorf "failed to get keyring home" err))
        | inl homeDir =>
            match kw_cosmosaccountNew kw homeDir bech32Prefix with
            | inr err => (None, "", Some (Errorf "failed to create keyring" err))
            | inl registry => (Some registry, bech32Prefix, None)
            end
        end
    end.

(** The result of [getChainInfo] as the engine's collaborator record holds
    it. *)
Definition chainInfoResult (registry : ChainRegistry) (chainName : string)
    : Res (string * string) :=
  match getChainInfo registry chainName with
  | (rpcEndpoint, bech32Prefix, None) => Ok (rpcEndpoint, bech32Prefix)
  | (_, _, Some err) => Err err
  end.

(** ** An earlier revision of the configuration *)

(** [validateConfig] of the revision whose [TPS] is an [int]. *)
Definition validateConfig_int (chain account fees memo : string) (tps : Z) : option error :=
  if String.eqb chain "" then Some (errorsNew "chain name is required")
  else if String.eqb account "" then Some (errorsNew "account address is required")
  else if String.eqb fees "" then Some (errorsNew "fees are required")
  else if String.eqb memo "" then Some (errorsNew "memo is required")
  else if tps <=? 0 then Some (errorsNew "tps must be greater than 0")
  else None.

(** ** Reading more of a trace *)

Definition milestoneOf (e : Effect) : option (Z * Z) :=
  match e with
  | EPrint (PrintSent txCount tps) => Some (txCount, tps)
  | _ => None
  end.

(** The "Sent n transactions" lines of a run. *)
Definition milestones (t : list Effect) : list (Z * Z) := omap milestoneOf t.

Definition failureOf (e : Effect) : option error :=
  match e with
  | ELog (LogSendFailed err) => Some err
  | _ => None
  end.

(** The errors logged as "Failed to send transaction". *)
Definition failureLogs (t : list Effect) : list error := omap failureOf t.

Definition createdTxOf (e : Effect) : option (TxOptions * Msg) :=
  match e with
  | ECreateTx opts msg => Some (opts, msg)
  | _ => None
  end.

(** The transactions handed to [CreateTxWithOptions]. *)
Definition createdTxs (t : list Effect) : list (TxOptions * Msg) := omap createdTxOf t.

Definition attemptError (a : Attempt) : option error :=
  match att_result a with
  | Err err => Some err
  | _ => None
  end.

Definition isDone (e : Event) : bool :=
  match e with
  | Done => true
  | Tick _ => false
  end.

Definition isTickerStop (e : Effect) : bool :=
  match e with
  | ETickerStop => true
  | _ => false
  end.

(** The stops of the ticker in a trace. *)
Definition tickerStops (t : list Effect) : list Effect := List.filter isTickerStop t.

(** The options every transaction of a run is created with. *)
Definition txOptions (config : Config) : TxOptions :=
  {| opt_Memo := Memo config; opt_Fees := Fees config; opt_GasLimit := GasLimit config |}.

(** A coin less the remainder of its division by [x]. *)
Definition roundDown (x : Z) (coin : sdk.Coin) : sdk.Coin :=
  {| sdk.Denom := sdk.Denom coin; sdk.Amount := sdk.Amount coin - sdk.Amount coin mod x |}.

(** ** A sample keyring *)

(** An in-memory keyring for the examples: the accounts in the order of
    their creation; [Create] and [Import] refuse a name already present. *)
Definition sampleAccount (name : string) : cosmosaccount_Account :=
  {| acc_Name := name;
     acc_Address := fun prefix =>
       if String.eqb prefix "" then inr (errorsNew "empty prefix")
       else inl (prefix ++ "1" ++ name)%string |}.

Fixpoint sampleFind (k : list string) (name : string) : bool :=
  match k with
  | [] => false
  | n :: rest => String.eqb n name || sampleFind rest name
  end.

Fixpoint sampleRemove (k : list string) (name : string) : list string :=
  match k with
  | [] => []
  | n :: rest => if String.eqb n name then sampleRemove rest name else n :: sampleRemove rest name
  end.

Global Instance sampleRegistry : Registry (list string) := {|
  reg_GetByName k name :=
    if sampleFind k name then inl (sampleAccount name)
    else inr (AccountDoesNotExistError name);
  reg_Create k name :=
    if sampleFind k name then (k, inr (RegistryFailure (errorsNew "account already exists")))
    else (k ++ [name], inl (sampleAccount name, "abandon ability able"));
  reg_Import k name secret passphrase :=
    if sampleFind k name then (k, inr (RegistryFailure (errorsNew "account already exists")))
    else (k ++ [name], inl (sampleAccount name));
  reg_DeleteByName k name :=
    if sampleFind k name then (sampleRemove k name, None)
    else (k, Some (AccountDoesNotExistError name));
  reg_List k := inl (map sampleAccount k)
|}.

(** A chain registry that knows cosmoshub. *)
Definition sampleChains : ChainRegistry :=
  {| cr_FetchChains := None;
     cr_Chains := {[ "cosmoshub" := {| chain_RPC := []; chain_Bech32Prefix := "" |} ]};
     cr_EnrichChain := fun _ =>
       inl {| chain_RPC := [ {| rpc_Address := "https://rpc.cosmos.example:443" |} ];
              chain_Bech32Prefix := "cosmos" |} |}.

Definition sampleKeyringWorld : KeyringWorld (list string) :=
  {| kw_chains := sampleChains;
     kw_getKeyringHome := inl "/home/alice/.spamtx/keyring";
     kw_cosmosaccountNew := fun _ _ => inl [] |}.

(** A world whose chain lookup fails. *)
Definition noRegistryWorld : World :=
  {| w_getChainInfo := fun _ => Err (errorsNew "failed to fetch chains");
     w_getKeyringHome := w_getKeyringHome sampleWorld;
     w_cosmosclientNew := w_cosmosclientNew sampleWorld;
     w_clientAccount := w_clientAccount sampleWorld;
     w_accountAddress := w_accountAddress sampleWorld;
     w_queryAccount := w_queryAccount sampleWorld;
     w_ParseCoinsNormalized := sampleParse |}.

(** A world in which the account is not found on chain. *)
Definition unfundedWorld : World :=
  {| w_getChainInfo := w_getChainInfo sampleWorld;
     w_getKeyringHome := w_getKeyringHome sampleWorld;
     w_cosmosclientNew := w_cosmosclientNew sampleWorld;
     w_clientAccount := w_clientAccount sampleWorld;
     w_accountAddress := w_accountAddress sampleWorld;
     w_queryAccount := fun _ _ => Err (errorsNew "account not found");
     w_ParseCoinsNormalized := sampleParse |}.

(** A configuration with an endpoint of its own. *)
Definition customRPCConfig : Config :=
  {| Chain := "cosmoshub"; Account := "alice"; Fees := "1000uatom"; Memo := "spam test";
     TPS := 5; GasLimit := 0; RPC := "http://localhost:26657";
     Heavy := false; HeavyAddressCount := 0 |}.

(** A configuration asking for more than one transaction per nanosecond. *)
Definition tooFastConfig : Config :=
  {| Chain := "cosmoshub"; Account := "alice"; Fees := "1000uatom"; Memo := "spam test";
     TPS := 2000000000; GasLimit := 0; RPC := "";
     Heavy := false; HeavyAddressCount := 0 |}.

(** * Properties *)

(** ** Facts about the machine integers *)

Module U64Facts.

Lemma wrap_small z : U64.in_range z -> U64.wrap z = z.
Proof. unfold U64.in_range, U64.wrap. intros H. apply Z.mod_small. exact H. Qed.

Lemma wrap_range z : U64.in_range (U64.wrap z).
Proof. unfold U64.in_range, U64.wrap, U64.modulus. apply Z.mod_pos_bound. lia. Qed.

Lemma add_small a b :
  0 <= a -> 0 <= b -> a + b < U64.modulus -> U64.add a b = a + b.
Proof. intros. unfold U64.add. apply wrap_small. unfold U64.in_range. lia. Qed.

Lemma sub_small a b : 0 <= b <= a -> a < U64.modulus -> U64.sub a b = a - b.
Proof. intros. unfold U64.sub. apply wrap_small. unfold U64.in_range. lia. Qed.

(** A subtraction that borrows comes out [2^64] too large. *)
Lemma sub_borrow a b :
  0 <= a < b -> b <= U64.modulus -> U64.sub a b = a - b + U64.modulus.
Proof.
  intros Hab Hb. unfold U64.sub, U64.wrap.
  symmetry. apply (Z.mod_unique_pos _ _ (-1)); lia.
Qed.

(** Counting one more after a wrapped increment. *)
Lemma wrap_succ x (c : nat) :
  U64.wrap (U64.add x 1 + Z.of_nat c) = U64.wrap (x + Z.of_nat (1 + c)).
Proof.
  unfold U64.add, U64.wrap. rewrite Zplus_mod_idemp_l. f_equal. lia.
Qed.

Lemma wrap_succ_add c : U64.wrap (c + 1) = U64.add (U64.wrap c) 1.
Proof. unfold U64.add, U64.wrap. rewrite Zplus_mod_idemp_l. reflexivity. Qed.

(** Adding one more to an offset is adding one to the sum. *)
Lemma add_succ base c :
  U64.add base (U64.wrap (c + 1)) = U64.add (U64.add base (U64.wrap c)) 1.
Proof.
  unfold U64.add, U64.wrap.
  rewrite Zplus_mod_idemp_r, Zplus_mod_idemp_l.
  replace (base + c mod U64.modulus + 1) with (base + 1 + c mod U64.modulus) by lia.
  rewrite Zplus_mod_idemp_r. f_equal. lia.
Qed.

End U64Facts.

(** ** The heavy-mode output count *)

Section AddressCount.

Variable config : Config.
Hypothesis Hwf : Config_wf config.

Lemma estimatedCount_exact :
  50000 <= GasLimit config ->
  estimatedCount config = (GasLimit config - 50000) / 15000.
Proof.
  intros Hge. destruct Hwf as (_ & [_ Hlt] & _).
  unfold estimatedCount, U64.div. rewrite U64Facts.sub_small; [reflexivity | lia | lia].
Qed.

Lemma estimatedCount_wrapped :
  0 <= GasLimit config < 50000 ->
  estimatedCount config = (GasLimit config + U64.modulus - 50000) / 15000.
Proof.
  intros Hlt. unfold estimatedCount, U64.div.
  rewrite U64Facts.sub_borrow; [f_equal; lia | lia | unfold U64.modulus; lia].
Qed.

(** An override is used whatever the gas limit. *)
Lemma calculateAddressCount_override :
  0 < HeavyAddressCount config ->
  calculateAddressCount config = HeavyAddressCount config.
Proof.
  intros Hpos. unfold calculateAddressCount.
  destruct (Z.ltb_spec 0 (HeavyAddressCount config)); [reflexivity | lia].
Qed.

(** Where the subtraction does not borrow (no gas limit, or one of at
    least 50000), the code computes the count the specification describes. *)
Lemma calculateAddressCount_agrees :
  GasLimit config = 0 \/ 50000 <= GasLimit config ->
  calculateAddressCount config
  = specAddressCount (HeavyAddressCount config) (GasLimit config).
Proof.
  intros Hgas. unfold calculateAddressCount, specAddressCount.
  destruct (0 <? HeavyAddressCount config); [reflexivity |].
  destruct Hgas as [H0 | Hge].
  - rewrite H0. reflexivity.
  - rewrite (estimatedCount_exact Hge).
    destruct (0 <? GasLimit config); [| reflexivity].
    destruct (0 <? (GasLimit config - 50000) / 15000); reflexivity.
Qed.

(** Below 50000 the subtraction borrows, and the wrapped value, which is
    far above zero, is returned instead of the default. *)
Lemma calculateAddressCount_borrow :
  HeavyAddressCount config = 0 ->
  0 < GasLimit config < 50000 ->
  calculateAddressCount config = (GasLimit config + U64.modulus - 50000) / 15000
  /\ 1229782938247300 <= calculateAddressCount config.
Proof.
  intros Hov Hgas.
  assert (Hbig : 1229782938247300 <= (GasLimit config + U64.modulus - 50000) / 15000).
  { apply Z.div_le_lower_bound; unfold U64.modulus; lia. }
  unfold calculateAddressCount. rewrite Hov. simpl.
  destruct (Z.ltb_spec 0 (GasLimit config)); [| lia].
  rewrite estimatedCount_wrapped by lia.
  destruct (Z.ltb_spec 0 ((GasLimit config + U64.modulus - 50000) / 15000)); [| lia].
  split; [reflexivity | exact Hbig].
Qed.

(** The count is never zero: the composer never divides by zero. *)
Lemma calculateAddressCount_pos : 0 < calculateAddressCount config.
Proof.
  unfold calculateAddressCount.
  destruct (Z.ltb_spec 0 (HeavyAddressCount config)); [assumption |].
  destruct (0 <? GasLimit config); [| lia].
  destruct (Z.ltb_spec 0 (estimatedCount config)); [assumption | lia].
Qed.

Lemma calculateAddressCount_range : U64.in_range (calculateAddressCount config).
Proof.
  destruct Hwf as (_ & Hgas & Hov).
  pose proof calculateAddressCount_pos as Hpos.
  unfold U64.in_range in *. split; [lia |].
  unfold calculateAddressCount.
  destruct (0 <? HeavyAddressCount config); [lia |].
  destruct (0 <? GasLimit config); [| unfold U64.modulus; lia].
  destruct (0 <? estimatedCount config); [| unfold U64.modulus; lia].
  unfold estimatedCount, U64.div.
  pose proof (U64Facts.wrap_range (GasLimit config - 50000)) as Hr.
  unfold U64.in_range, U64.sub in *.
  apply Z.le_lt_trans with (U64.wrap (GasLimit config - 50000)); [| lia].
  apply Z.div_le_upper_bound; lia.
Qed.

End AddressCount.

(** The examples of the specification. *)
Example calculateAddressCount_examples :
  calculateAddressCount (heavyConfig 25 500000) = 25
  /\ calculateAddressCount (heavyConfig 0 500000) = 30
  /\ calculateAddressCount (heavyConfig 0 2000000) = 130
  /\ calculateAddressCount (heavyConfig 0 60000) = 10
  /\ calculateAddressCount (heavyConfig 0 0) = 10.
Proof. repeat split; vm_compute; reflexivity. Qed.

(** C2: the resolution order (override, else the gas-limit estimate
    [floor((gasLimit - 50000) / 15000)] when positive, else 10) gives 10
    for a gas limit of 49999 without override, since the estimate is
    negative there; [calculateAddressCount] returns 1229782938247303. *)
Example calculateAddressCount_resolution_diverges :
  (49999 - 50000) / 15000 = -1
  /\ specAddressCount 0 49999 = 10
  /\ calculateAddressCount (heavyConfig 0 49999) = 1229782938247303.
Proof. repeat split; vm_compute; reflexivity. Qed.

(** C3: without override, a gas limit of 40000 has a computed value
    [floor((40000 - 50000) / 15000) <= 0], for which the count should fall
    back to 10; [calculateAddressCount] returns 1229782938247302. *)
Example calculateAddressCount_low_gas_no_fallback :
  0 < GasLimit (heavyConfig 0 40000)
  /\ (GasLimit (heavyConfig 0 40000) - 50000) / 15000 <= 0
  /\ calculateAddressCount (heavyConfig 0 40000) = 1229782938247302
  /\ calculateAddressCount (heavyConfig 0 40000) <> 10.
Proof. repeat split; vm_compute; congruence. Qed.

(** ** Coins *)

Module CoinFacts.
Import sdk.

Lemma NewCoin_ok denom amount :
  ValidateDenom denom = true -> 0 <= amount ->
  NewCoin denom amount = Ok {| Denom := denom; Amount := amount |}.
Proof.
  intros Hd Ha. unfold NewCoin. rewrite Hd. simpl.
  destruct (Z.ltb_spec amount 0); [lia | reflexivity].
Qed.

Lemma QuoInt_coins_ok coins x :
  Coins_wf coins -> 0 < x ->
  QuoInt_coins coins x = Ok (map (quoCoin x) coins).
Proof.
  intros Hwf Hx. induction Hwf as [| coin rest [Hd Ha] _ IH]; [reflexivity |].
  cbn [QuoInt_coins map]. unfold Int_Quo.
  destruct (Z.eqb_spec x 0); [lia |].
  cbn [mbind Res_bind].
  rewrite Z.quot_div_nonneg by lia.
  rewrite NewCoin_ok by (try assumption; apply Z.div_pos; lia).
  rewrite IH. reflexivity.
Qed.

Lemma QuoInt_ok coins x :
  Coins_wf coins -> 0 < x -> QuoInt coins x = Ok (map (quoCoin x) coins).
Proof.
  intros Hwf Hx. unfold QuoInt. destruct (Z.eqb_spec x 0); [lia |].
  apply QuoInt_coins_ok; assumption.
Qed.

Lemma MulInt_coins_ok coins x :
  Forall (fun c => ValidateDenom (Denom c) = true
                   /\ 0 <= Amount c /\ Amount c * x < 2 ^ MaxBitLen) coins ->
  0 < x ->
  MulInt_coins coins x = Ok (map (mulCoin x) coins).
Proof.
  intros Hall Hx. induction Hall as [| coin rest (Hd & Ha & Hb) _ IH]; [reflexivity |].
  cbn [MulInt_coins map]. unfold Int_Mul.
  assert (Hp : 0 <= Amount coin * x) by (apply Z.mul_nonneg_nonneg; lia).
  rewrite Z.abs_eq by exact Hp.
  destruct (Z.ltb_spec (Amount coin * x) (2 ^ MaxBitLen)); [| lia].
  cbn [mbind Res_bind].
  rewrite NewCoin_ok by assumption.
  rewrite IH. reflexivity.
Qed.

Lemma MulInt_ok coins x :
  Forall (fun c => ValidateDenom (Denom c) = true
                   /\ 0 <= Amount c /\ Amount c * x < 2 ^ MaxBitLen) coins ->
  0 < x ->
  MulInt coins x = Ok (map (mulCoin x) coins).
Proof.
  intros Hall Hx. unfold MulInt. destruct (Z.eqb_spec x 0); [lia |].
  apply MulInt_coins_ok; assumption.
Qed.

(** [IsZero] holds exactly of the coin lists without a non-zero amount. *)
Lemma IsZero_true coins :
  IsZero coins = true <-> Forall (fun c => Amount c = 0) coins.
Proof.
  induction coins as [| coin rest IH]; cbn [IsZero].
  - split; [constructor | reflexivity].
  - unfold Coin_IsZero. destruct (Z.eqb_spec (Amount coin) 0) as [H0 | Hn]; cbn [negb].
    + rewrite IH. split; [intros; constructor; assumption | intros H; inversion H; assumption].
    + split; [discriminate | intros H; inversion H; contradiction].
Qed.

Lemma IsZero_false coins :
  IsZero coins = false <-> Exists (fun c => Amount c <> 0) coins.
Proof.
  induction coins as [| coin rest IH]; cbn [IsZero].
  - split; [discriminate | intros H; inversion H].
  - unfold Coin_IsZero. destruct (Z.eqb_spec (Amount coin) 0) as [H0 | Hn]; cbn [negb].
    + rewrite IH. split; [intros; apply Exists_cons_tl; assumption |].
      intros H; inversion H; [contradiction | assumption].
    + split; [intros _; apply Exists_cons_hd; assumption | reflexivity].
Qed.

(** The substitute of one minimal unit is a valid coin set. *)
Lemma NewCoins_unit denom :
  ValidateDenom denom = true ->
  NewCoins [ {| Denom := denom; Amount := 1 |} ] = Ok [ {| Denom := denom; Amount := 1 |} ].
Proof.
  intros Hd. unfold NewCoins, removeZeroCoins.
  cbn -[ValidateDenom]. rewrite Hd. reflexivity.
Qed.

Lemma AmountOf_mulCoin coins x denom :
  AmountOf (map (mulCoin x) coins) denom = AmountOf coins denom * x.
Proof.
  induction coins as [| coin rest IH]; [reflexivity |].
  cbn [map AmountOf mulCoin Denom Amount]. rewrite IH.
  destruct (String.eqb (Denom coin) denom); lia.
Qed.

End CoinFacts.

(** ** The heavy-mode composer *)

Section Composer.
Import sdk CoinFacts.

Variable outputCount : Z.
Variable amount : Coins.
Hypothesis Hcount : 0 < outputCount.
Hypothesis Hamount : Coins_wf amount.

(** When some share is not zero, the split is used as it is. *)
Lemma heavyAmountPerOutput_split :
  Exists (fun c => Amount c / outputCount <> 0) amount ->
  heavyAmountPerOutput outputCount amount = Ok (map (quoCoin outputCount) amount).
Proof.
  intros Hex. unfold heavyAmountPerOutput.
  rewrite QuoInt_ok by assumption. cbn [mbind Res_bind].
  assert (Hz : IsZero (map (quoCoin outputCount) amount) = false).
  { apply IsZero_false. apply Exists_exists in Hex as (c & Hin & Hc).
    apply Exists_exists. exists (quoCoin outputCount c). split; [| exact Hc].
    apply list_elem_of_fmap. exists c. split; [reflexivity | exact Hin]. }
  rewrite Hz. reflexivity.
Qed.

(** When every share is zero, each output gets one unit of the first
    denomination. *)
Lemma heavyAmountPerOutput_unit first rest :
  amount = first :: rest ->
  Forall (fun c => Amount c / outputCount = 0) amount ->
  heavyAmountPerOutput outputCount amount = Ok [ {| Denom := Denom first; Amount := 1 |} ].
Proof.
  intros Heq Hall. unfold heavyAmountPerOutput.
  rewrite QuoInt_ok by assumption. cbn [mbind Res_bind].
  assert (Hz : IsZero (map (quoCoin outputCount) amount) = true).
  { apply IsZero_true. apply Forall_fmap. exact Hall. }
  rewrite Hz. rewrite Heq in *.
  apply Forall_cons in Hamount as [[Hd _] _].
  rewrite NewCoin_ok by (assumption || lia). cbn [mbind Res_bind].
  apply NewCoins_unit. exact Hd.
Qed.

Lemma shares_zero_or_not :
  Forall (fun c => Amount c / outputCount = 0) amount
  \/ Exists (fun c => Amount c / outputCount <> 0) amount.
Proof.
  clear Hamount. induction amount as [| c l IH]; [left; constructor |].
  destruct (Z.eq_dec (Amount c / outputCount) 0) as [H0 | Hn].
  - destruct IH as [IH | IH]; [left; constructor; assumption |].
    right. apply Exists_cons_tl. exact IH.
  - right. apply Exists_cons_hd. exact Hn.
Qed.

(** The per-output amount is always computed, and multiplying it back by
    the count stays within [math.Int]. *)
Lemma heavyAmountPerOutput_ok :
  outputCount < U64.modulus ->
  exists perOutput,
    heavyAmountPerOutput outputCount amount = Ok perOutput
    /\ Forall (fun c => ValidateDenom (Denom c) = true
                        /\ 0 <= Amount c /\ Amount c * outputCount < 2 ^ MaxBitLen) perOutput.
Proof.
  intros Hlt. destruct shares_zero_or_not as [Hall | Hex].
  - assert (Hshape : amount = [] \/ exists first rest, amount = first :: rest).
    { clear. destruct amount as [| first rest]; [left | right]; eauto. }
    destruct Hshape as [Hnil | (first & rest & Heq)].
    + exists []. split; [| constructor].
      unfold heavyAmountPerOutput. rewrite QuoInt_ok by assumption.
      rewrite Hnil. reflexivity.
    + exists [ {| Denom := Denom first; Amount := 1 |} ]. split.
      * apply (heavyAmountPerOutput_unit first rest); assumption.
      * pose proof Hamount as Hwf. rewrite Heq in Hwf.
        apply Forall_cons in Hwf as [[Hd _] _].
        constructor; [| constructor]. cbn [Denom Amount].
        split; [exact Hd |]. split; [lia |].
        unfold U64.modulus, MaxBitLen in *. lia.
  - exists (map (quoCoin outputCount) amount). split.
    + apply heavyAmountPerOutput_split. exact Hex.
    + apply Forall_fmap. eapply Forall_impl; [exact Hamount |].
      intros c [Hd [Ha Hb]]. cbn [quoCoin Denom Amount compose].
      split; [exact Hd |].
      assert (0 <= Amount c / outputCount) by (apply Z.div_pos; lia).
      split; [assumption |].
      apply Z.le_lt_trans with (Amount c); [| exact Hb].
      rewrite Z.mul_comm. apply Z.mul_div_le. lia.
Qed.

End Composer.

Section HeavyMessage.
Import sdk CoinFacts.

Variable config : Config.
Variable amount : Coins.
Variable accountAddr : string.
Hypothesis Hconfig : Config_wf config.
Hypothesis Hamount : Coins_wf amount.

(** [make] answers with a slice of the length asked for, up to
    [maxOutputs], and panics beyond. *)
Lemma make_Outputs_ok (len : Z) :
  0 <= len <= maxOutputs ->
  make_Outputs len = Ok (replicate (Z.to_nat len) {| out_Address := ""; out_Coins := [] |}).
Proof.
  intros [H0 Hmax]. unfold make_Outputs.
  change maxOutputs with 7036874417766 in Hmax.
  change maxAlloc with 281474976710656. change sizeof_Output with 40.
  destruct (Z.leb_spec (2 ^ 63) len) as [Hbig |]; [lia |].
  destruct (Z.ltb_spec 281474976710656 (40 * len)) as [Hbig |]; [lia |].
  reflexivity.
Qed.

Lemma make_Outputs_panic (len : Z) :
  maxOutputs < len ->
  make_Outputs len = Panic "runtime error: makeslice: len out of range".
Proof.
  intros Hmax. unfold make_Outputs.
  change maxOutputs with 7036874417766 in Hmax.
  change maxAlloc with 281474976710656. change sizeof_Output with 40.
  destruct (Z.leb_spec (2 ^ 63) len) as [Hbig |]; [reflexivity |].
  destruct (Z.ltb_spec 281474976710656 (40 * len)) as [Hbig |]; [reflexivity | lia].
Qed.

Lemma outputsAmountOf_replicate (k : nat) (o : Output) denom :
  outputsAmountOf (replicate k o) denom = AmountOf (out_Coins o) denom * Z.of_nat k.
Proof.
  induction k as [| k IH]; cbn [replicate outputsAmountOf foldr]; [lia |].
  fold (outputsAmountOf (replicate k o) denom). rewrite IH. lia.
Qed.

(** Beyond [maxOutputs] the composer panics in [make], after the amounts
    have been computed. *)
Lemma heavyMultiSend_beyond_alloc :
  maxOutputs < calculateAddressCount config ->
  heavyMultiSend config amount accountAddr
  = Panic "runtime error: makeslice: len out of range".
Proof.
  intros Hbig.
  pose proof (calculateAddressCount_pos config) as Hpos.
  pose proof (calculateAddressCount_range config Hconfig) as [_ Hlt].
  destruct (heavyAmountPerOutput_ok _ _ Hpos Hamount Hlt) as (perOutput & Hper & Hbound).
  unfold heavyMultiSend. rewrite Hper. cbn [mbind Res_bind].
  rewrite MulInt_ok by assumption. cbn [mbind Res_bind].
  rewrite make_Outputs_panic by exact Hbig. reflexivity.
Qed.

(** The message built from a given per-output amount, when the output
    slice can be allocated. *)
Lemma heavyMultiSend_of perOutput :
  calculateAddressCount config <= maxOutputs ->
  heavyAmountPerOutput (calculateAddressCount config) amount = Ok perOutput ->
  Forall (fun c => ValidateDenom (Denom c) = true /\ 0 <= Amount c
                   /\ Amount c * calculateAddressCount config < 2 ^ MaxBitLen) perOutput ->
  heavyMultiSend config amount accountAddr
  = Ok (MsgMultiSend
          [ {| in_Address := accountAddr;
               in_Coins := map (mulCoin (calculateAddressCount config)) perOutput |} ]
          (replicate (Z.to_nat (calculateAddressCount config))
             {| out_Address := accountAddr; out_Coins := perOutput |})).
Proof.
  intros Halloc Hper Hbound. unfold heavyMultiSend. rewrite Hper. cbn [mbind Res_bind].
  rewrite MulInt_ok by (try exact Hbound; apply calculateAddressCount_pos).
  pose proof (calculateAddressCount_pos config) as Hpos.
  rewrite make_Outputs_ok by lia. cbn [mbind Res_bind].
  exact (f_equal (fun o => Ok (MsgMultiSend _ o)) (fmap_replicate _ _ _)).
Qed.

(** Up to [maxOutputs] the composer produces a message (it does not
    panic on a well-formed amount). *)
Lemma heavyMultiSend_ok :
  calculateAddressCount config <= maxOutputs ->
  exists perOutput,
    heavyAmountPerOutput (calculateAddressCount config) amount = Ok perOutput
    /\ heavyMultiSend config amount accountAddr
       = Ok (MsgMultiSend
               [ {| in_Address := accountAddr;
                    in_Coins := map (mulCoin (calculateAddressCount config)) perOutput |} ]
               (replicate (Z.to_nat (calculateAddressCount config))
                  {| out_Address := accountAddr; out_Coins := perOutput |})).
Proof.
  intros Halloc.
  pose proof (calculateAddressCount_range config Hconfig) as [_ Hlt].
  destruct (heavyAmountPerOutput_ok _ _ (calculateAddressCount_pos config) Hamount Hlt)
    as (perOutput & Hper & Hbound).
  exists perOutput. split; [exact Hper |].
  exact (heavyMultiSend_of perOutput Halloc Hper Hbound).
Qed.

(** C5: a heavy-mode message has exactly one input and one output entry
    per output; the input's coins are the per-output amount multiplied by
    the output count, which is what the outputs carry in total, for every
    denomination.  The message is built for every output count whose slice
    can be allocated; beyond, [make] panics and there is no message. *)
Theorem heavy_input_is_outputs_total :
  (calculateAddressCount config <= maxOutputs ->
   exists perOutput input outputs,
     heavyAmountPerOutput (calculateAddressCount config) amount = Ok perOutput
     /\ heavyMultiSend config amount accountAddr = Ok (MsgMultiSend [input] outputs)
     /\ Z.of_nat (List.length outputs) = calculateAddressCount config
     /\ Forall (fun o => out_Coins o = perOutput /\ out_Address o = accountAddr) outputs
     /\ in_Address input = accountAddr
     /\ MulInt perOutput (calculateAddressCount config) = Ok (in_Coins input)
     /\ in_Coins input = map (mulCoin (calculateAddressCount config)) perOutput
     /\ forall denom, outputsAmountOf outputs denom = AmountOf (in_Coins input) denom)
  /\ (maxOutputs < calculateAddressCount config ->
      heavyMultiSend config amount accountAddr
      = Panic "runtime error: makeslice: len out of range").
Proof.
  split; [intros Halloc | exact heavyMultiSend_beyond_alloc].
  pose proof (calculateAddressCount_pos config) as Hpos.
  pose proof (calculateAddressCount_range config Hconfig) as [_ Hlt].
  destruct (heavyAmountPerOutput_ok _ _ Hpos Hamount Hlt) as (perOutput & Hper & Hbound).
  eexists perOutput, _, _. split; [exact Hper |].
  split; [exact (heavyMultiSend_of perOutput Halloc Hper Hbound) |].
  cbn [in_Address in_Coins].
  split; [rewrite length_replicate; lia |].
  split; [apply Forall_replicate; split; reflexivity |].
  split; [reflexivity |].
  split; [apply MulInt_ok; assumption |].
  split; [reflexivity |].
  intros denom. rewrite outputsAmountOf_replicate, AmountOf_mulCoin.
  cbn [out_Coins]. rewrite Z2Nat.id by lia. reflexivity.
Qed.

(** C4, amended: when the share of every denomination of the (non-empty)
    amount is zero, every output carries exactly one unit of the first
    denomination, and the input one unit per output, whatever the
    configured total (for an output count whose slice can be allocated). *)
Theorem heavy_fallback_one_unit_each first rest :
  calculateAddressCount config <= maxOutputs ->
  amount = first :: rest ->
  Forall (fun c => Amount c / calculateAddressCount config = 0) amount ->
  heavyAmountPerOutput (calculateAddressCount config) amount
  = Ok [ {| Denom := Denom first; Amount := 1 |} ]
  /\ heavyMultiSend config amount accountAddr
     = Ok (MsgMultiSend
             [ {| in_Address := accountAddr;
                  in_Coins := [ {| Denom := Denom first;
                                   Amount := calculateAddressCount config |} ] |} ]
             (replicate (Z.to_nat (calculateAddressCount config))
                {| out_Address := accountAddr;
                   out_Coins := [ {| Denom := Denom first; Amount := 1 |} ] |})).
Proof.
  intros Halloc Heq Hall.
  pose proof (calculateAddressCount_pos config) as Hpos.
  pose proof (calculateAddressCount_range config Hconfig) as [_ Hlt].
  pose proof (heavyAmountPerOutput_unit _ _ Hpos Hamount first rest Heq Hall) as Hper.
  split; [exact Hper |].
  rewrite (heavyMultiSend_of _ Halloc Hper).
  - unfold mulCoin. cbn [map Denom Amount]. rewrite Z.mul_1_l. reflexivity.
  - pose proof Hamount as Hwf. rewrite Heq in Hwf.
    apply Forall_cons in Hwf as [[Hd _] _].
    constructor; [| constructor]. cbn [Denom Amount].
    split; [exact Hd |]. split; [lia |].
    unfold U64.modulus, MaxBitLen in *. lia.
Qed.

(** C10, amended: when the share of at least one denomination is
    positive, the one-unit substitute is not used; every output carries one
    entry per denomination of the amount, in the same order, holding its
    share, so a denomination whose share truncates to zero stays in every
    output as a zero-amount entry (for an output count whose slice can be
    allocated). *)
Theorem heavy_split_keeps_every_denomination :
  calculateAddressCount config <= maxOutputs ->
  Exists (fun c => 0 < Amount c / calculateAddressCount config) amount ->
  heavyAmountPerOutput (calculateAddressCount config) amount
  = Ok (map (quoCoin (calculateAddressCount config)) amount)
  /\ exists input outputs,
       heavyMultiSend config amount accountAddr = Ok (MsgMultiSend [input] outputs)
       /\ Forall (fun o =>
                    out_Coins o = map (quoCoin (calculateAddressCount config)) amount
                    /\ map Denom (out_Coins o) = map Denom amount) outputs.
Proof.
  intros Halloc Hex.
  pose proof (calculateAddressCount_pos config) as Hpos.
  pose proof (calculateAddressCount_range config Hconfig) as [_ Hlt].
  assert (Hne : Exists (fun c => Amount c / calculateAddressCount config <> 0) amount).
  { eapply Exists_impl; [exact Hex |]. cbn. intros c Hc. lia. }
  pose proof (heavyAmountPerOutput_split _ _ Hpos Hamount Hne) as Hper.
  split; [exact Hper |].
  destruct (heavyAmountPerOutput_ok _ _ Hpos Hamount Hlt) as (perOutput & Hper' & Hbound).
  rewrite Hper in Hper'. injection Hper' as <-.
  eexists _, _. split; [exact (heavyMultiSend_of _ Halloc Hper Hbound) |].
  apply Forall_replicate. cbn [out_Coins]. split; [reflexivity |].
  rewrite <- list_fmap_compose. reflexivity.
Qed.

End HeavyMessage.

(** C4, as stated, fails: with 5stake and 1000uatom over 10 outputs the
    share of stake is zero, yet the outputs carry the split and not one
    unit of stake. *)
Lemma heavy_fallback_not_per_denomination :
  Exists (fun c => sdk.Amount c / 10 = 0) [stake 5; uatom 1000]
  /\ calculateAddressCount (heavyConfig 0 0) = 10
  /\ heavyAmountPerOutput 10 [stake 5; uatom 1000] = Ok [stake 0; uatom 100]
  /\ heavyAmountPerOutput 10 [stake 5; uatom 1000] <> Ok [stake 1].
Proof.
  split; [apply Exists_cons_hd; reflexivity |].
  split; [reflexivity |].
  split; [vm_compute; reflexivity | vm_compute; discriminate].
Qed.

(** C10, as stated, fails: with 5stake and 1000uatom over 10 outputs the
    share of stake truncates to zero, and stake is still among the
    denominations of every output. *)
Lemma heavy_zero_share_not_dropped :
  heavyAmountPerOutput 10 [stake 5; uatom 1000] = Ok [stake 0; uatom 100]
  /\ positiveShares 10 [stake 5; uatom 1000] = [uatom 100]
  /\ heavyAmountPerOutput 10 [stake 5; uatom 1000]
     <> Ok (positiveShares 10 [stake 5; uatom 1000])
  /\ exists outputs,
       heavyMultiSend (heavyConfig 0 0) [stake 5; uatom 1000] "cosmos1alice"
       = Ok (MsgMultiSend
               [ {| in_Address := "cosmos1alice"; in_Coins := [stake 0; uatom 1000] |} ]
               outputs)
       /\ Forall (fun o => map sdk.Denom (out_Coins o) = ["stake"; "uatom"]) outputs.
Proof.
  split; [vm_compute; reflexivity |].
  split; [vm_compute; reflexivity |].
  split; [vm_compute; discriminate |].
  eexists. split; [vm_compute; reflexivity |].
  repeat constructor.
Qed.

(** ** One attempt *)

Section Send.

Variable w : World.
Variable config : Config.
Variable amount : sdk.Coins.
Variable bech32Prefix : string.

(** The send function the loop calls. *)
Local Abbreviation send := (if Heavy config then sendHeavyTransaction else sendTransaction).

(** An attempt is accepted exactly when the node answers with code 0
    (the address and the message having been built). *)
Lemma sendTransaction_result txNum memo sequence r :
  (sendTransaction w config amount txNum bech32Prefix memo sequence r).2 = Ok tt
  <-> (exists addr, w_accountAddress w bech32Prefix = Ok addr)
      /\ exists hash, r = Responded 0 hash.
Proof.
  unfold sendTransaction.
  destruct (w_accountAddress w bech32Prefix) as [addr | e | m]; cbn.
  - destruct r as [e | e | code hash]; cbn.
    + split; [discriminate | intros [_ [h Hh]]; discriminate].
    + split; [discriminate | intros [_ [h Hh]]; discriminate].
    + destruct (Z.eqb_spec code 0) as [-> | Hne]; cbn.
      * split; [intros _; eauto |].
        intros _. destruct (U64.rem txNum 100 =? 0); reflexivity.
      * split; [discriminate | intros [_ [h Hh]]; congruence].
  - split; [discriminate | intros [[a Ha] _]; discriminate].
  - split; [discriminate | intros [[a Ha] _]; discriminate].
Qed.

Lemma sendTransaction_trace txNum memo sequence r :
  let call := sendTransaction w config amount txNum bech32Prefix memo sequence r in
  attempts call.1 = [] /\ fetches call.1 = []
  /\ sampleLogs call.1
     = match call.2, r with
       | Ok _, Responded _ hash =>
           if U64.rem txNum 100 =? 0 then [LogBroadcasted txNum hash (Memo config)] else []
       | _, _ => []
       end.
Proof.
  unfold sendTransaction.
  destruct (w_accountAddress w bech32Prefix) as [addr | e | m]; cbn;
    [| repeat split; reflexivity ..].
  destruct r as [e | e | code hash]; cbn; [repeat split; reflexivity .. |].
  destruct (code =? 0); cbn; [| repeat split; reflexivity].
  destruct (U64.rem txNum 100 =? 0); cbn; repeat split; reflexivity.
Qed.

Lemma sendHeavyTransaction_trace txNum memo sequence r :
  let call := sendHeavyTransaction w config amount txNum bech32Prefix memo sequence r in
  attempts call.1 = [] /\ fetches call.1 = []
  /\ sampleLogs call.1
     = match call.2, r with
       | Ok _, Responded _ hash =>
           if U64.rem txNum 100 =? 0
           then [LogHeavyBroadcasted txNum hash (calculateAddressCount config) (Memo config)]
           else []
       | _, _ => []
       end.
Proof.
  unfold sendHeavyTransaction.
  destruct (w_accountAddress w bech32Prefix) as [addr | e | m]; cbn;
    [| repeat split; reflexivity ..].
  destruct (heavyMultiSend config amount addr) as [msg | e | m]; cbn;
    [| repeat split; reflexivity ..].
  destruct r as [e | e | code hash]; cbn; [repeat split; reflexivity .. |].
  destruct (code =? 0); cbn; [| repeat split; reflexivity].
  destruct (U64.rem txNum 100 =? 0); cbn; repeat split; reflexivity.
Qed.

Lemma send_trace txNum memo sequence r :
  attempts (send w config amount txNum bech32Prefix memo sequence r).1 = []
  /\ fetches (send w config amount txNum bech32Prefix memo sequence r).1 = [].
Proof.
  destruct (Heavy config).
  - pose proof (sendHeavyTransaction_trace txNum memo sequence r) as (H1 & H2 & _). auto.
  - pose proof (sendTransaction_trace txNum memo sequence r) as (H1 & H2 & _). auto.
Qed.

(** With a resolvable address, a well-formed amount and, in heavy mode, an
    output slice that can be allocated, an attempt never panics. *)
Lemma send_no_panic txNum memo sequence r addr :
  Config_wf config -> sdk.Coins_wf amount -> heavy_allocatable config ->
  w_accountAddress w bech32Prefix = Ok addr ->
  forall msg, (send w config amount txNum bech32Prefix memo sequence r).2 <> Panic msg.
Proof.
  intros Hc Ha Halloc Haddr msg. unfold heavy_allocatable in Halloc.
  revert Halloc. destruct (Heavy config); intros Halloc.
  - unfold sendHeavyTransaction. rewrite Haddr. cbn.
    destruct (heavyMultiSend_ok config amount addr Hc Ha (Halloc eq_refl)) as (per & _ & ->).
    cbn.
    destruct r as [e | e | code hash]; cbn; try discriminate.
    destruct (code =? 0); cbn; [| discriminate].
    destruct (U64.rem txNum 100 =? 0); cbn; discriminate.
  - unfold sendTransaction. rewrite Haddr. cbn.
    destruct r as [e | e | code hash]; cbn; try discriminate.
    destruct (code =? 0); cbn; [| discriminate].
    destruct (U64.rem txNum 100 =? 0); cbn; discriminate.
Qed.

End Send.

(** ** The loop *)

Section Loop.

Variable w : World.
Variable config : Config.
Variable amount : sdk.Coins.
Variable bech32Prefix : string.
Variable sequence : Z.

Local Abbreviation send := (if Heavy config then sendHeavyTransaction else sendTransaction).
Local Abbreviation loop := (spamLoop w config amount bech32Prefix sequence).

Lemma acceptedCount_app l1 l2 :
  acceptedCount (l1 ++ l2) = (acceptedCount l1 + acceptedCount l2)%nat.
Proof. unfold acceptedCount. rewrite List.filter_app, length_app. reflexivity. Qed.

Lemma acceptedCount_cons a l :
  acceptedCount (a :: l) = ((if accepted a then 1 else 0) + acceptedCount l)%nat.
Proof. unfold acceptedCount. cbn [List.filter]. destruct (accepted a); reflexivity. Qed.

Lemma acceptedCount_take_total (i : nat) l :
  (acceptedCount (take i l) <= acceptedCount l)%nat.
Proof.
  rewrite <- (take_drop i l) at 2. rewrite acceptedCount_app. lia.
Qed.

Lemma acceptedCount_take_le (i j : nat) l :
  (i <= j)%nat -> (acceptedCount (take i l) <= acceptedCount (take j l))%nat.
Proof.
  intros Hij. replace (take i l) with (take i (take j l)).
  - apply acceptedCount_take_total.
  - rewrite take_take. f_equal. lia.
Qed.

Lemma attempts_app t1 t2 : attempts (t1 ++ t2) = attempts t1 ++ attempts t2.
Proof. unfold attempts. apply omap_app. Qed.

Lemma fetches_app t1 t2 : fetches (t1 ++ t2) = fetches t1 ++ fetches t2.
Proof. unfold fetches. apply List.filter_app. Qed.

(** The attempts of the loop, one pulse at a time. *)
Lemma attempts_loop_tick txCount r events :
  attempts (loop txCount (Tick r :: events)).1
  = {| att_heavy := Heavy config; att_txNum := txCount;
       att_sequence := U64.add sequence txCount;
       att_result := (send w config amount txCount bech32Prefix (Memo config)
                           (U64.add sequence txCount) r).2 |}
    :: match (send w config amount txCount bech32Prefix (Memo config)
                   (U64.add sequence txCount) r).2 with
       | Ok _ => if TPS config =? 0 then []
                 else attempts (loop (U64.add txCount 1) events).1
       | Err _ => attempts (loop txCount events).1
       | Panic _ => []
       end.
Proof.
  cbn [spamLoop].
  pose proof (send_trace w config amount bech32Prefix txCount (Memo config)
                (U64.add sequence txCount) r) as [Hatt _].
  destruct (send w config amount txCount bech32Prefix (Memo config)
              (U64.add sequence txCount) r) as [t res] eqn:Hcall.
  cbn [fst snd] in *.
  destruct res as [[] | e | m].
  - destruct (TPS config =? 0).
    + cbn [fst]. rewrite attempts_app, Hatt. reflexivity.
    + unfold after. cbn [fst]. rewrite !attempts_app, Hatt.
      destruct (U64.rem (U64.add txCount 1) (TPS config) =? 0); reflexivity.
  - unfold after. cbn [fst]. rewrite !attempts_app, Hatt. reflexivity.
  - cbn [fst]. rewrite attempts_app, Hatt. reflexivity.
Qed.

Lemma fetches_loop txCount events : fetches (loop txCount events).1 = [].
Proof.
  revert txCount. induction events as [| [r |] events IH]; intros txCount;
    [reflexivity | | reflexivity].
  cbn [spamLoop].
  pose proof (send_trace w config amount bech32Prefix txCount (Memo config)
                (U64.add sequence txCount) r) as [_ Hf].
  destruct (send w config amount txCount bech32Prefix (Memo config)
              (U64.add sequence txCount) r) as [t res] eqn:Hcall.
  cbn [fst snd] in *.
  destruct res as [[] | e | m].
  - destruct (TPS config =? 0).
    + cbn [fst]. rewrite fetches_app, Hf. reflexivity.
    + unfold after. cbn [fst]. rewrite !fetches_app, Hf, IH.
      destruct (U64.rem (U64.add txCount 1) (TPS config) =? 0); reflexivity.
  - unfold after. cbn [fst]. rewrite !fetches_app, Hf, IH. reflexivity.
  - cbn [fst]. rewrite fetches_app, Hf. reflexivity.
Qed.

(** The counter passed as [txNum], and the sequence number, of the [i]-th
    attempt: both follow the number of accepted attempts before it, modulo
    [2^64]. *)
Lemma loop_attempt_wrapped events :
  forall txCount (i : nat) a,
    U64.in_range txCount ->
    attempts (loop txCount events).1 !! i = Some a ->
    att_txNum a
    = U64.wrap (txCount
                + Z.of_nat (acceptedCount (take i (attempts (loop txCount events).1))))
    /\ att_sequence a = U64.add sequence (att_txNum a)
    /\ att_heavy a = Heavy config.
Proof.
  induction events as [| [r |] events IH]; intros txCount i a Hrange Hi;
    [discriminate | | discriminate].
  rewrite attempts_loop_tick in *.
  set (res := (send w config amount txCount bech32Prefix (Memo config)
                    (U64.add sequence txCount) r).2) in *.
  destruct i as [| i].
  - cbn in Hi. injection Hi as <-. cbn [att_txNum att_sequence att_heavy take].
    rewrite Z.add_0_r, U64Facts.wrap_small by exact Hrange. auto.
  - cbn [lookup list_lookup] in Hi.
    cbn [take]. rewrite acceptedCount_cons. unfold accepted at 1. cbn [att_result].
    destruct res as [[] | e | m].
    + destruct (TPS config =? 0); [discriminate |].
      destruct (IH (U64.add txCount 1) i a (U64Facts.wrap_range _) Hi) as (Hn & Hs & Hh).
      split; [| auto]. rewrite Hn. apply U64Facts.wrap_succ.
    + destruct (IH txCount i a Hrange Hi) as (Hn & Hs & Hh).
      split; [| auto]. rewrite Hn. f_equal.
    + discriminate.
Qed.

(** The same numbers without the wrap, as long as the counter and the
    sequence stay below [2^64]. *)
Lemma loop_attempt_exact events (i : nat) a :
  U64.in_range sequence ->
  sequence + Z.of_nat (acceptedCount (attempts (loop 0 events).1)) < U64.modulus ->
  attempts (loop 0 events).1 !! i = Some a ->
  att_txNum a = Z.of_nat (acceptedCount (take i (attempts (loop 0 events).1)))
  /\ att_sequence a
     = sequence + Z.of_nat (acceptedCount (take i (attempts (loop 0 events).1))).
Proof.
  intros Hseq Hbound Hi.
  assert (H0 : U64.in_range 0) by (unfold U64.in_range, U64.modulus; lia).
  destruct (loop_attempt_wrapped events 0 i a H0 Hi) as (Hn & Hs & _).
  pose proof (acceptedCount_take_total i (attempts (loop 0 events).1)) as Hle.
  unfold U64.in_range in *.
  rewrite Z.add_0_l, U64Facts.wrap_small in Hn by (unfold U64.in_range; lia).
  split; [exact Hn |].
  rewrite Hs, Hn. apply U64Facts.add_small; lia.
Qed.

(** Processing the cancellation: whatever pulses came first, the loop
    prints its counter, stops the ticker and returns [nil]; later events
    are not looked at. *)
Lemma loop_cancelled addr rest ticks :
  Config_wf config -> sdk.Coins_wf amount -> heavy_allocatable config ->
  w_accountAddress w bech32Prefix = Ok addr ->
  TPS config <> 0 ->
  Forall (fun e => e <> Done) ticks ->
  forall txCount,
    U64.in_range txCount ->
    loop txCount (ticks ++ Done :: rest)
    = ((loop txCount ticks).1
       ++ [EPrint (PrintTotal
                     (U64.wrap (txCount
                                + Z.of_nat (acceptedCount (attempts (loop txCount ticks).1)))));
           ETickerStop],
       Returned None).
Proof.
  intros Hc Ha Halloc Haddr Htps Hticks.
  induction Hticks as [| e ticks He _ IH]; intros txCount Hrange.
  - cbn. rewrite Z.add_0_r, U64Facts.wrap_small by exact Hrange. reflexivity.
  - destruct e as [r |]; [| contradiction].
    rewrite attempts_loop_tick.
    cbn [app spamLoop].
    pose proof (send_no_panic w config amount bech32Prefix txCount (Memo config)
                  (U64.add sequence txCount) r addr Hc Ha Halloc Haddr) as Hnp.
    destruct (send w config amount txCount bech32Prefix (Memo config)
                (U64.add sequence txCount) r) as [t res] eqn:Hcall.
    cbn [fst snd] in *.
    destruct res as [[] | err | m]; [| | exfalso; exact (Hnp m eq_refl)].
    + destruct (Z.eqb_spec (TPS config) 0) as [H0 | _]; [contradiction |].
      rewrite (IH (U64.add txCount 1)) by apply U64Facts.wrap_range.
      unfold after. cbn [fst snd].
      rewrite acceptedCount_cons. unfold accepted at 1. cbn [att_result].
      rewrite U64Facts.wrap_succ, <- !app_assoc. reflexivity.
    + rewrite (IH txCount) by exact Hrange.
      unfold after. cbn [fst snd].
      rewrite acceptedCount_cons. unfold accepted at 1. cbn [att_result].
      rewrite <- !app_assoc. reflexivity.
Qed.

End Loop.

(** ** Before the loop *)

Section Prelude.

Variable w : World.
Variable config : Config.

Ltac prelude_step :=
  match goal with
  | |- context [w_getChainInfo w ?c] => destruct (w_getChainInfo w c) as [[? ?] | ? | ?] eqn:?
  | |- context [w_getKeyringHome w] => destruct (w_getKeyringHome w) eqn:?
  | |- context [w_cosmosclientNew w ?a ?b ?c ?d] => destruct (w_cosmosclientNew w a b c d) eqn:?
  | |- context [w_clientAccount w ?a] => destruct (w_clientAccount w a) eqn:?
  | |- context [w_accountAddress w ?a] => destruct (w_accountAddress w a) eqn:?
  | |- context [w_queryAccount w ?n ?a] => destruct (w_queryAccount w n a) as [[[? | ? | ?]] | ? | ?] eqn:?
  | |- context [parseAmount w ?a] => destruct (parseAmount w a) eqn:?
  | |- context [tickerInterval ?a] => destruct (tickerInterval a) eqn:?
  | |- context [Z.leb ?a ?b] => destruct (Z.leb a b) eqn:?
  end; cbn -[parseAmount tickerInterval].

(** Nothing is submitted before the loop. *)
Lemma spamPrelude_no_submission :
  submissions (spamPrelude w config).1 = [] /\ attempts (spamPrelude w config).1 = [].
Proof.
  unfold spamPrelude, verifyAccountExists, fetchAccountSequence, NewTicker.
  destruct (String.eqb (RPC config) ""); cbn -[parseAmount tickerInterval];
    repeat prelude_step; split; reflexivity.
Qed.

Lemma tickerInterval_zero a : tickerInterval 0 <> Ok a.
Proof. discriminate. Qed.

Lemma spamPrelude_shape :
  match (spamPrelude w config).2 with
  | Ok li =>
      exists addr resp,
        w_accountAddress w (li_bech32Prefix li) = Ok addr
        /\ w_queryAccount w 1%nat addr = Ok resp
        /\ resp_sequence resp = Ok (li_sequence li)
        /\ parseAmount w (Fees config) = Ok (li_amount li)
        /\ TPS config <> 0
        /\ fetches (spamPrelude w config).1 = [EFetchSequenceQuery addr]
  | _ => True
  end.
Proof.
  unfold spamPrelude, verifyAccountExists, fetchAccountSequence, NewTicker.
  destruct (String.eqb (RPC config) ""); cbn -[parseAmount tickerInterval];
    repeat prelude_step; try exact I; simplify_eq;
    (eexists _, _; repeat split; try eassumption; try reflexivity;
     intros H0;
     match goal with H : tickerInterval _ = Ok _ |- _ => rewrite H0 in H; discriminate H end).
Qed.

(** What a run that reaches its loop has done before. *)
Lemma spamPrelude_ok li :
  (spamPrelude w config).2 = Ok li ->
  exists addr resp,
    w_accountAddress w (li_bech32Prefix li) = Ok addr
    /\ w_queryAccount w 1%nat addr = Ok resp
    /\ resp_sequence resp = Ok (li_sequence li)
    /\ parseAmount w (Fees config) = Ok (li_amount li)
    /\ TPS config <> 0
    /\ fetches (spamPrelude w config).1 = [EFetchSequenceQuery addr].
Proof.
  intros Hli. pose proof spamPrelude_shape as Hshape.
  rewrite Hli in Hshape. exact Hshape.
Qed.

End Prelude.

(** ** Whole runs *)

Section Run.

Variable w : World.
Variable config : Config.

Lemma spamTransactions_loop li events :
  (spamPrelude w config).2 = Ok li ->
  spamTransactions w config events
  = after (spamPrelude w config).1
      (spamLoop w config (li_amount li) (li_bech32Prefix li) (li_sequence li) 0 events).
Proof.
  intros Hli. unfold spamTransactions.
  destruct (spamPrelude w config) as [t res]. cbn [snd fst] in *. rewrite Hli. reflexivity.
Qed.

Lemma spamTransactions_attempts li events :
  (spamPrelude w config).2 = Ok li ->
  attempts (spamTransactions w config events).1
  = attempts (spamLoop w config (li_amount li) (li_bech32Prefix li)
                (li_sequence li) 0 events).1.
Proof.
  intros Hli. rewrite (spamTransactions_loop li events Hli).
  unfold after. cbn [fst]. rewrite attempts_app.
  destruct (spamPrelude_no_submission w config) as [_ ->]. reflexivity.
Qed.

(** A run whose prelude fails ends there, whatever the events. *)
Lemma spamTransactions_stops_early events :
  (forall li, (spamPrelude w config).2 <> Ok li) ->
  (spamTransactions w config events).1 = (spamPrelude w config).1
  /\ (spamTransactions w config events).2 <> Running
  /\ (spamTransactions w config events).2 <> Returned None.
Proof.
  intros Hfail. unfold spamTransactions.
  destruct (spamPrelude w config) as [t [li | e | m]]; cbn [fst snd] in *.
  - exfalso. exact (Hfail li eq_refl).
  - repeat split; discriminate.
  - repeat split; discriminate.
Qed.

Lemma baseSequence_Some base :
  baseSequence w config = Some base ->
  exists li, (spamPrelude w config).2 = Ok li /\ li_sequence li = base.
Proof.
  unfold baseSequence. destruct (spamPrelude w config).2 as [li | e | m];
    [| discriminate ..].
  intros [= <-]. exists li. auto.
Qed.

(** The arguments of the [i]-th attempt, as the machine computes them. *)
Lemma run_attempt_wrapped li events (i : nat) a :
  (spamPrelude w config).2 = Ok li ->
  attempts (spamTransactions w config events).1 !! i = Some a ->
  att_txNum a
  = U64.wrap (Z.of_nat (acceptedCount
                          (take i (attempts (spamTransactions w config events).1))))
  /\ att_sequence a = U64.add (li_sequence li) (att_txNum a).
Proof.
  intros Hli. rewrite (spamTransactions_attempts li events Hli). intros Hi.
  assert (H0 : U64.in_range 0) by (unfold U64.in_range, U64.modulus; lia).
  destruct (loop_attempt_wrapped w config _ _ _ events 0 i a H0 Hi) as (Hn & Hs & _).
  rewrite Z.add_0_l in Hn. auto.
Qed.

(** From one attempt to the next: nothing moves after a failure, both
    numbers move by one ([uint64]) after an acceptance. *)
Lemma run_attempt_step li events (i : nat) a b :
  (spamPrelude w config).2 = Ok li ->
  attempts (spamTransactions w config events).1 !! i = Some a ->
  attempts (spamTransactions w config events).1 !! S i = Some b ->
  att_txNum b = (if accepted a then U64.add (att_txNum a) 1 else att_txNum a)
  /\ att_sequence b = (if accepted a then U64.add (att_sequence a) 1 else att_sequence a).
Proof.
  intros Hli Ha Hb.
  destruct (run_attempt_wrapped li events i a Hli Ha) as [Hna Hsa].
  destruct (run_attempt_wrapped li events (S i) b Hli Hb) as [Hnb Hsb].
  rewrite (take_S_r _ i a Ha), acceptedCount_app, acceptedCount_cons in Hnb.
  replace (acceptedCount []) with 0%nat in Hnb by reflexivity.
  rewrite Hsb, Hsa, Hnb, Hna.
  destruct (accepted a).
  - replace (Z.of_nat (acceptedCount (take i (attempts (spamTransactions w config events).1))
                       + (1 + 0)))
      with (Z.of_nat (acceptedCount (take i (attempts (spamTransactions w config events).1)))
            + 1) by lia.
    split; [apply U64Facts.wrap_succ_add | apply U64Facts.add_succ].
  - rewrite Nat.add_0_r. split; reflexivity.
Qed.

(** The counter passed as [txNum] to the [i]-th attempt. *)
Lemma run_txNum_exact li events (i : nat) a :
  (spamPrelude w config).2 = Ok li ->
  Z.of_nat (acceptedCount (attempts (spamTransactions w config events).1)) < U64.modulus ->
  attempts (spamTransactions w config events).1 !! i = Some a ->
  att_txNum a
  = Z.of_nat (acceptedCount (take i (attempts (spamTransactions w config events).1))).
Proof.
  intros Hli. rewrite (spamTransactions_attempts li events Hli). intros Hbound Hi.
  assert (H0 : U64.in_range 0) by (unfold U64.in_range, U64.modulus; lia).
  destruct (loop_attempt_wrapped w config _ _ _ events 0 i a H0 Hi) as (Hn & _ & _).
  rewrite Hn, Z.add_0_l. apply U64Facts.wrap_small.
  pose proof (acceptedCount_take_total i
    (attempts (spamLoop w config (li_amount li) (li_bech32Prefix li)
                 (li_sequence li) 0 events).1)) as Hle.
  unfold U64.in_range. lia.
Qed.

(** The sequence number passed to the [i]-th attempt. *)
Lemma run_sequence_exact li events (i : nat) a :
  World_wf w ->
  (spamPrelude w config).2 = Ok li ->
  li_sequence li
  + Z.of_nat (acceptedCount (attempts (spamTransactions w config events).1)) < U64.modulus ->
  attempts (spamTransactions w config events).1 !! i = Some a ->
  att_sequence a
  = li_sequence li
    + Z.of_nat (acceptedCount (take i (attempts (spamTransactions w config events).1))).
Proof.
  intros [Hseq _] Hli. rewrite (spamTransactions_attempts li events Hli). intros Hbound Hi.
  destruct (spamPrelude_ok w config li Hli) as (addr & resp & _ & Hq & Hr & _).
  pose proof (Hseq _ _ _ _ Hq Hr) as Hrange.
  apply (loop_attempt_exact w config _ _ _ events i a Hrange Hbound Hi).
Qed.

Lemma acceptedCount_take_S (l : list Attempt) (i : nat) a :
  l !! i = Some a ->
  Z.of_nat (acceptedCount (take (S i) l))
  = Z.of_nat (acceptedCount (take i l)) + (if accepted a then 1 else 0).
Proof.
  intros Hi. rewrite (take_S_r l i a Hi), acceptedCount_app, acceptedCount_cons.
  replace (acceptedCount []) with 0%nat by reflexivity.
  destruct (accepted a); lia.
Qed.

End Run.

(** ** The sequence allocator *)

(** C1: in a run that reaches its loop, the account sequence is queried
    exactly once, before the loop and before anything is submitted; the
    sequence number given to the [i]-th attempt is that base plus the
    number of accepted attempts before it ([uint64] addition); after a
    failed attempt the next one gets the same number, after an accepted one
    the next number.  As long as the numbers stay below [2^64], the range
    of sequence numbers, the sum and the step are exact and the numbers
    never decrease. *)
Theorem sequence_numbers_follow_acceptances
    (w : World) (config : Config) (events : list Event) (base : Z) :
  World_wf w ->
  baseSequence w config = Some base ->
  (exists address resp loopTrace,
      (spamTransactions w config events).1 = (spamPrelude w config).1 ++ loopTrace
      /\ fetches (spamPrelude w config).1 = [EFetchSequenceQuery address]
      /\ w_queryAccount w 1%nat address = Ok resp
      /\ resp_sequence resp = Ok base
      /\ submissions (spamPrelude w config).1 = []
      /\ fetches loopTrace = [])
  /\ (forall (i : nat) a,
         attempts (spamTransactions w config events).1 !! i = Some a ->
         att_sequence a
         = U64.add base
             (U64.wrap (Z.of_nat (acceptedCount
                                    (take i (attempts
                                               (spamTransactions w config events).1))))))
  /\ (forall (i : nat) a b,
         attempts (spamTransactions w config events).1 !! i = Some a ->
         attempts (spamTransactions w config events).1 !! S i = Some b ->
         att_sequence b = if accepted a then U64.add (att_sequence a) 1 else att_sequence a)
  /\ (base + Z.of_nat (acceptedCount (attempts (spamTransactions w config events).1))
      < U64.modulus ->
      (forall (i : nat) a,
          attempts (spamTransactions w config events).1 !! i = Some a ->
          att_sequence a
          = base + Z.of_nat (acceptedCount
                               (take i (attempts (spamTransactions w config events).1))))
      /\ (forall (i : nat) a b,
             attempts (spamTransactions w config events).1 !! i = Some a ->
             attempts (spamTransactions w config events).1 !! S i = Some b ->
             att_sequence b = if accepted a then att_sequence a + 1 else att_sequence a)
      /\ (forall (i j : nat) a b,
             (i <= j)%nat ->
             attempts (spamTransactions w config events).1 !! i = Some a ->
             attempts (spamTransactions w config events).1 !! j = Some b ->
             att_sequence a <= att_sequence b)).
Proof.
  intros Hw Hbase.
  destruct (baseSequence_Some w config base Hbase) as (li & Hli & <-).
  split; [| split; [| split]].
  - destruct (spamPrelude_ok w config li Hli) as (addr & resp & _ & Hq & Hr & _ & _ & Hf).
    exists addr, resp, (spamLoop w config (li_amount li) (li_bech32Prefix li)
                          (li_sequence li) 0 events).1.
    rewrite (spamTransactions_loop w config li events Hli).
    repeat split; try assumption.
    + apply spamPrelude_no_submission.
    + apply fetches_loop.
  - intros i a Ha.
    destruct (run_attempt_wrapped w config li events i a Hli Ha) as [Hn Hs].
    rewrite Hs, Hn. reflexivity.
  - intros i a b Ha Hb.
    apply (run_attempt_step w config li events i a b Hli Ha Hb).
  - intros Hbound.
    pose proof (fun i a => run_sequence_exact w config li events i a Hw Hli Hbound) as Hexact.
    split; [exact Hexact | split].
    + intros i a b Ha Hb.
      rewrite (Hexact _ _ Ha), (Hexact _ _ Hb), (acceptedCount_take_S _ _ _ Ha).
      destruct (accepted a); lia.
    + intros i j a b Hij Ha Hb.
      rewrite (Hexact _ _ Ha), (Hexact _ _ Hb).
      pose proof (acceptedCount_take_le i j
                    (attempts (spamTransactions w config events).1) Hij).
      lia.
Qed.

(** Where the range ends: from the last [uint64] sequence the sum wraps,
    and the attempt after an accepted one is given sequence 0. *)
Example sequence_wraps_beyond_range :
  baseSequence lastSequenceWorld simpleConfig = Some 18446744073709551615
  /\ map att_sequence
       (attempts (spamTransactions lastSequenceWorld simpleConfig
                    [Tick (acceptedAs "A1"); Tick (acceptedAs "B2")]).1)
     = [18446744073709551615; 0].
Proof. split; vm_compute; reflexivity. Qed.

(** ** Log sampling *)

(** C6, amended: the index that drives the sampled log is the success
    count: the [txNum] of the [i]-th attempt is the number of accepted
    attempts before it (a [uint64]), so it stays the same after a rejected
    or errored attempt and moves by one after an accepted one; an attempt
    logs the hash and the memo exactly when it is accepted and its [txNum]
    is a multiple of 100. *)
Theorem sampling_index_counts_acceptances
    (w : World) (config : Config) (events : list Event) (li : LoopInputs) :
  (spamPrelude w config).2 = Ok li ->
  (forall (i : nat) a,
      attempts (spamTransactions w config events).1 !! i = Some a ->
      att_txNum a
      = U64.wrap (Z.of_nat (acceptedCount
                              (take i (attempts (spamTransactions w config events).1)))))
  /\ (forall (i : nat) a b,
         attempts (spamTransactions w config events).1 !! i = Some a ->
         attempts (spamTransactions w config events).1 !! S i = Some b ->
         att_txNum b = if accepted a then U64.add (att_txNum a) 1 else att_txNum a)
  /\ (Z.of_nat (acceptedCount (attempts (spamTransactions w config events).1))
      < U64.modulus ->
      (forall (i : nat) a,
          attempts (spamTransactions w config events).1 !! i = Some a ->
          att_txNum a
          = Z.of_nat (acceptedCount
                        (take i (attempts (spamTransactions w config events).1))))
      /\ (forall (i : nat) a b,
             attempts (spamTransactions w config events).1 !! i = Some a ->
             attempts (spamTransactions w config events).1 !! S i = Some b ->
             att_txNum b = if accepted a then att_txNum a + 1 else att_txNum a))
  /\ (forall amount prefix txNum memo sequence r,
         sampleLogs (sendTransaction w config amount txNum prefix memo sequence r).1
         = match (sendTransaction w config amount txNum prefix memo sequence r).2, r with
           | Ok _, Responded _ hash =>
               if txNum mod 100 =? 0 then [LogBroadcasted txNum hash (Memo config)] else []
           | _, _ => []
           end)
  /\ (forall amount prefix txNum memo sequence r,
         sampleLogs (sendHeavyTransaction w config amount txNum prefix memo sequence r).1
         = match (sendHeavyTransaction w config amount txNum prefix memo sequence r).2, r with
           | Ok _, Responded _ hash =>
               if txNum mod 100 =? 0
               then [LogHeavyBroadcasted txNum hash (calculateAddressCount config)
                       (Memo config)]
               else []
           | _, _ => []
           end).
Proof.
  intros Hli.
  split; [| split; [| split; [| split]]].
  - intros i a Ha. apply (run_attempt_wrapped w config li events i a Hli Ha).
  - intros i a b Ha Hb. apply (run_attempt_step w config li events i a b Hli Ha Hb).
  - intros Hbound.
    pose proof (fun i a => run_txNum_exact w config li events i a Hli Hbound) as Hexact.
    split; [exact Hexact |].
    intros i a b Ha Hb.
    rewrite (Hexact _ _ Ha), (Hexact _ _ Hb), (acceptedCount_take_S _ _ _ Ha).
    destruct (accepted a); lia.
  - intros amount prefix txNum memo sequence r.
    apply (sendTransaction_trace w config amount prefix txNum memo sequence r).
  - intros amount prefix txNum memo sequence r.
    apply (sendHeavyTransaction_trace w config amount prefix txNum memo sequence r).
Qed.

(** ** Cancellation *)

(** C7: when the loop takes the cancellation, after any pulses, it prints
    its count of the transactions accepted so far (also when that is
    zero), stops the ticker and returns [nil]; the count is a [uint64], and
    is the exact number below [2^64].  In heavy mode this is for output
    counts whose slice can be allocated: beyond, the first pulse panics in
    [make] and the cancellation is never taken. *)
Theorem cancellation_returns_nil
    (w : World) (config : Config) (li : LoopInputs) (ticks rest : list Event) :
  World_wf w -> Config_wf config -> heavy_allocatable config ->
  (spamPrelude w config).2 = Ok li ->
  Forall (fun e => e <> Done) ticks ->
  spamTransactions w config (ticks ++ Done :: rest)
  = ((spamTransactions w config ticks).1
     ++ [EPrint (PrintTotal
                   (U64.wrap
                      (Z.of_nat (acceptedCount
                                   (attempts (spamTransactions w config ticks).1)))));
         ETickerStop],
     Returned None)
  /\ (Z.of_nat (acceptedCount (attempts (spamTransactions w config ticks).1)) < U64.modulus ->
      U64.wrap (Z.of_nat (acceptedCount (attempts (spamTransactions w config ticks).1)))
      = Z.of_nat (acceptedCount (attempts (spamTransactions w config ticks).1))).
Proof.
  intros [_ Hparse] Hc Halloc Hli Hticks.
  split; [| intros Hbound; apply U64Facts.wrap_small; unfold U64.in_range; lia].
  destruct (spamPrelude_ok w config li Hli) as (addr & resp & Haddr & _ & _ & Hamt & Htps & _).
  assert (Hwf : sdk.Coins_wf (li_amount li)).
  { unfold parseAmount in Hamt. destruct (String.eqb (Fees config) ""); [discriminate |].
    destruct (w_ParseCoinsNormalized w (Fees config)) as [coins | e | m] eqn:Hp;
      [| discriminate ..].
    destruct (sdk.IsZero coins); [discriminate |].
    injection Hamt as <-. exact (Hparse _ _ Hp). }
  assert (H0 : U64.in_range 0) by (unfold U64.in_range, U64.modulus; lia).
  rewrite (spamTransactions_attempts w config li ticks Hli).
  rewrite (spamTransactions_loop w config li _ Hli).
  rewrite (spamTransactions_loop w config li ticks Hli).
  rewrite (loop_cancelled w config _ _ _ addr rest ticks Hc Hwf Halloc Haddr Htps Hticks 0 H0).
  unfold after. cbn [fst snd]. rewrite Z.add_0_l, app_assoc. reflexivity.
Qed.

(** ** Parsing the fee *)

(** C8: [parseAmount] returns an error exactly for the empty string, for
    a string the coin parser rejects, and for one that parses to a zero
    amount; a run whose fee does not parse never reaches its loop: it ends
    with a failure and has submitted nothing. *)
Theorem fee_parse_failure_is_fatal (w : World) :
  (forall s,
      (exists e, parseAmount w s = Err e)
      <-> (s = ""
           \/ (exists e, w_ParseCoinsNormalized w s = Err e)
           \/ (exists coins, w_ParseCoinsNormalized w s = Ok coins
                             /\ sdk.IsZero coins = true)))
  /\ (forall config events e,
         parseAmount w (Fees config) = Err e ->
         (spamTransactions w config events).2 <> Running
         /\ (spamTransactions w config events).2 <> Returned None
         /\ submissions (spamTransactions w config events).1 = []).
Proof.
  split.
  - intros s. unfold parseAmount.
    destruct (String.eqb_spec s "") as [-> | Hne].
    + split; [intros _; left; reflexivity | intros _; eauto].
    + destruct (w_ParseCoinsNormalized w s) as [coins | e | m].
      * destruct (sdk.IsZero coins) eqn:Hz.
        -- split; [intros _; right; right; eauto | intros _; eauto].
        -- split; [intros [e He]; discriminate |].
           intros [H | [[e He] | (c & Hc & Hz')]];
             [contradiction | discriminate | congruence].
      * split; [intros _; right; left; eauto | intros _; eauto].
      * split; [intros [e He]; discriminate |].
        intros [H | [[e He] | (c & Hc & _)]]; [contradiction | discriminate ..].
  - intros config events e Hfail.
    assert (Hpre : forall li, (spamPrelude w config).2 <> Ok li).
    { intros li Hli. destruct (spamPrelude_ok w config li Hli) as (_ & _ & _ & _ & _ & Hamt & _).
      congruence. }
    destruct (spamTransactions_stops_early w config events Hpre) as (Ht & Hr & Hn).
    repeat split; try assumption.
    rewrite Ht. apply spamPrelude_no_submission.
Qed.

(** ** Validation *)

(** C9: a configuration with rate 0, or with an empty chain, account, fee
    or memo, is rejected by [validateConfig], and the command then returns
    that error without starting the engine; the engine is started only
    with a positive rate, so whatever a run does, its rate is positive. *)
Theorem validation_guards_engine
    (w : World) (config : Config) (chain : string) (events : list Event) :
  U64.in_range (TPS config) ->
  (TPS config = 0 \/ chain = "" \/ Account config = "" \/ Fees config = ""
   \/ Memo config = "" ->
   exists err, validateConfig (withChain config chain) = Some err
               /\ spamCmd_RunE w config chain events = ([], Returned (Some err)))
  /\ (validateConfig (withChain config chain) = None ->
      0 < TPS (withChain config chain)
      /\ spamCmd_RunE w config chain events
         = spamTransactions w (withChain config chain) events)
  /\ (forall effect, effect ∈ (spamCmd_RunE w config chain events).1 -> 0 < TPS config).
Proof.
  intros [Hlo _].
  assert (Hcases : (exists err, validateConfig (withChain config chain) = Some err)
                   \/ (validateConfig (withChain config chain) = None
                       /\ TPS config <> 0 /\ chain <> "" /\ Account config <> ""
                       /\ Fees config <> "" /\ Memo config <> "")).
  { unfold validateConfig, withChain. cbn [Chain Account Fees Memo TPS].
    destruct (String.eqb_spec chain ""); [eauto |].
    destruct (String.eqb_spec (Account config) ""); [eauto |].
    destruct (String.eqb_spec (Fees config) ""); [eauto |].
    destruct (String.eqb_spec (Memo config) ""); [eauto |].
    destruct (Z.eqb_spec (TPS config) 0); [eauto |].
    right. repeat split; assumption. }
  unfold spamCmd_RunE.
  destruct Hcases as [[err Herr] | (Hnone & Htps & Hrest)].
  - rewrite Herr. split; [intros _; eauto |].
    split; [discriminate |].
    cbn [fst]. intros effect Hin. apply elem_of_nil in Hin. contradiction.
  - rewrite Hnone. split.
    + intros [H | [H | [H | [H | H]]]]; exfalso; tauto.
    + split; [intros _; split; [cbn [withChain TPS]; lia | reflexivity] |].
      intros _ _. lia.
Qed.

(** ** The properties on sample runs *)

Lemma heavyConfig_wf override gasLimit :
  U64.in_range override -> U64.in_range gasLimit -> Config_wf (heavyConfig override gasLimit).
Proof.
  intros Ho Hg. unfold Config_wf, heavyConfig. cbn [TPS GasLimit HeavyAddressCount].
  repeat split; try apply Ho; try apply Hg; unfold U64.modulus; lia.
Qed.

Lemma simpleConfig_wf : Config_wf simpleConfig.
Proof. unfold Config_wf, simpleConfig, U64.in_range, U64.modulus. cbn. lia. Qed.

(** The ten outputs of the default count can be allocated. *)
Lemma default_count_allocatable : calculateAddressCount (heavyConfig 0 0) <= maxOutputs.
Proof. vm_compute. discriminate. Qed.

Lemma small_in_range z : 0 <= z < 1000000 -> U64.in_range z.
Proof. unfold U64.in_range, U64.modulus. lia. Qed.

Lemma sample_coin_wf denom amount :
  sdk.ValidateDenom denom = true -> 0 <= amount < 1000000 ->
  sdk.Coin_wf {| sdk.Denom := denom; sdk.Amount := amount |}.
Proof.
  intros Hd Ha. split; [exact Hd |]. cbn [sdk.Amount]. unfold sdk.MaxBitLen. lia.
Qed.

Lemma sampleWorld_wf : World_wf sampleWorld.
Proof.
  split.
  - intros n address resp sequence [= <-] [= <-]. apply small_in_range. lia.
  - intros s coins. cbn [sampleWorld w_ParseCoinsNormalized]. unfold sampleParse.
    repeat (destruct (String.eqb s _); [intros [= <-] |]); try discriminate;
      repeat constructor; apply sample_coin_wf; (reflexivity || lia).
Qed.

(** The allocator on the sample run: base 7, sequences 7, 7, 8, 8. *)
Lemma sequence_numbers_follow_acceptances_witness :
  World_wf sampleWorld
  /\ baseSequence sampleWorld simpleConfig = Some 7
  /\ map att_sequence (attempts (spamTransactions sampleWorld simpleConfig sampleTicks).1)
     = [7; 7; 8; 8]
  /\ (forall (i : nat) a,
         attempts (spamTransactions sampleWorld simpleConfig sampleTicks).1 !! i = Some a ->
         att_sequence a
         = 7 + Z.of_nat (acceptedCount
                           (take i (attempts
                                      (spamTransactions sampleWorld simpleConfig
                                         sampleTicks).1)))).
Proof.
  split; [exact sampleWorld_wf |].
  split; [reflexivity |].
  split; [vm_compute; reflexivity |].
  destruct (sequence_numbers_follow_acceptances sampleWorld simpleConfig sampleTicks 7
              sampleWorld_wf eq_refl) as (_ & _ & _ & Hexact).
  apply Hexact. vm_compute. reflexivity.
Defined.

(** 1000uatom over 10 outputs: 100uatom each, 1000uatom in the input. *)
Lemma heavy_input_is_outputs_total_witness :
  Config_wf (heavyConfig 0 0)
  /\ sdk.Coins_wf [uatom 1000]
  /\ calculateAddressCount (heavyConfig 0 0) <= maxOutputs
  /\ heavyAmountPerOutput 10 [uatom 1000] = Ok [uatom 100]
  /\ heavyMultiSend (heavyConfig 0 0) [uatom 1000] "cosmos1alice"
     = Ok (MsgMultiSend
             [ {| in_Address := "cosmos1alice"; in_Coins := [uatom 1000] |} ]
             (replicate 10 {| out_Address := "cosmos1alice"; out_Coins := [uatom 100] |}))
  /\ exists perOutput input outputs,
       heavyMultiSend (heavyConfig 0 0) [uatom 1000] "cosmos1alice"
       = Ok (MsgMultiSend [input] outputs)
       /\ sdk.MulInt perOutput 10 = Ok (in_Coins input)
       /\ forall denom, outputsAmountOf outputs denom = sdk.AmountOf (in_Coins input) denom.
Proof.
  assert (Hc : Config_wf (heavyConfig 0 0)) by (apply heavyConfig_wf; apply small_in_range; lia).
  assert (Ha : sdk.Coins_wf [uatom 1000])
    by (repeat constructor; apply sample_coin_wf; (reflexivity || lia)).
  split; [exact Hc |]. split; [exact Ha |]. split; [exact default_count_allocatable |].
  split; [vm_compute; reflexivity |].
  split; [vm_compute; reflexivity |].
  destruct (proj1 (heavy_input_is_outputs_total (heavyConfig 0 0) [uatom 1000]
                     "cosmos1alice" Hc Ha) default_count_allocatable)
    as (perOutput & input & outputs & _ & Hmsg & _ & _ & _ & Hmul & _ & Hsum).
  exists perOutput, input, outputs. auto.
Defined.

(** 5uatom over 10 outputs: 1uatom each, 10uatom in all. *)
Lemma heavy_fallback_one_unit_each_witness :
  Config_wf (heavyConfig 0 0)
  /\ sdk.Coins_wf [uatom 5]
  /\ calculateAddressCount (heavyConfig 0 0) <= maxOutputs
  /\ Forall (fun c => sdk.Amount c / calculateAddressCount (heavyConfig 0 0) = 0) [uatom 5]
  /\ heavyAmountPerOutput (calculateAddressCount (heavyConfig 0 0)) [uatom 5] = Ok [uatom 1]
  /\ heavyMultiSend (heavyConfig 0 0) [uatom 5] "cosmos1alice"
     = Ok (MsgMultiSend
             [ {| in_Address := "cosmos1alice"; in_Coins := [uatom 10] |} ]
             (replicate 10 {| out_Address := "cosmos1alice"; out_Coins := [uatom 1] |})).
Proof.
  assert (Hc : Config_wf (heavyConfig 0 0)) by (apply heavyConfig_wf; apply small_in_range; lia).
  assert (Ha : sdk.Coins_wf [uatom 5])
    by (repeat constructor; apply sample_coin_wf; (reflexivity || lia)).
  assert (Hz : Forall (fun c => sdk.Amount c / calculateAddressCount (heavyConfig 0 0) = 0)
                 [uatom 5]) by (repeat constructor).
  split; [exact Hc |]. split; [exact Ha |]. split; [exact default_count_allocatable |].
  split; [exact Hz |].
  exact (heavy_fallback_one_unit_each (heavyConfig 0 0) [uatom 5] "cosmos1alice" Hc Ha
           (uatom 5) [] default_count_allocatable eq_refl Hz).
Defined.

(** 5stake and 1000uatom over 10 outputs: 0stake and 100uatom each. *)
Lemma heavy_split_keeps_every_denomination_witness :
  Config_wf (heavyConfig 0 0)
  /\ sdk.Coins_wf [stake 5; uatom 1000]
  /\ calculateAddressCount (heavyConfig 0 0) <= maxOutputs
  /\ Exists (fun c => 0 < sdk.Amount c / calculateAddressCount (heavyConfig 0 0))
       [stake 5; uatom 1000]
  /\ heavyAmountPerOutput (calculateAddressCount (heavyConfig 0 0)) [stake 5; uatom 1000]
     = Ok [stake 0; uatom 100].
Proof.
  assert (Hc : Config_wf (heavyConfig 0 0)) by (apply heavyConfig_wf; apply small_in_range; lia).
  assert (Ha : sdk.Coins_wf [stake 5; uatom 1000])
    by (repeat constructor; apply sample_coin_wf; (reflexivity || lia)).
  assert (He : Exists (fun c => 0 < sdk.Amount c / calculateAddressCount (heavyConfig 0 0))
                 [stake 5; uatom 1000]).
  { apply Exists_cons_tl, Exists_cons_hd. reflexivity. }
  split; [exact Hc |]. split; [exact Ha |]. split; [exact default_count_allocatable |].
  split; [exact He |].
  exact (proj1 (heavy_split_keeps_every_denomination (heavyConfig 0 0) [stake 5; uatom 1000]
                  "cosmos1alice" Hc Ha default_count_allocatable He)).
Defined.

(** C6, as stated, fails: after a rejected and a timed-out attempt the
    third attempt still has index 0, not 2; the index has not moved with
    the attempts. *)
Lemma attempt_index_ignores_failures :
  map att_txNum
    (attempts (spamTransactions sampleWorld simpleConfig
                 [Tick rejected; Tick timedOut; Tick (acceptedAs "A1")]).1)
  = [0; 0; 0]
  /\ map accepted
       (attempts (spamTransactions sampleWorld simpleConfig
                    [Tick rejected; Tick timedOut; Tick (acceptedAs "A1")]).1)
     = [false; false; true]
  /\ map att_txNum
       (attempts (spamTransactions sampleWorld simpleConfig
                    [Tick rejected; Tick timedOut; Tick (acceptedAs "A1")]).1)
     <> [0; 1; 2].
Proof.
  split; [vm_compute; reflexivity |].
  split; [vm_compute; reflexivity | vm_compute; discriminate].
Qed.

(** The sampling index on the sample run: 0, 0, 1, 1, and one sampled line. *)
Lemma sampling_index_counts_acceptances_witness :
  (spamPrelude sampleWorld simpleConfig).2 = Ok sampleInputs
  /\ map att_txNum (attempts (spamTransactions sampleWorld simpleConfig sampleTicks).1)
     = [0; 0; 1; 1]
  /\ sampleLogs (spamTransactions sampleWorld simpleConfig sampleTicks).1
     = [LogBroadcasted 0 "A1" "spam test"]
  /\ forall (i : nat) a,
       attempts (spamTransactions sampleWorld simpleConfig sampleTicks).1 !! i = Some a ->
       att_txNum a
       = Z.of_nat (acceptedCount
                     (take i (attempts (spamTransactions sampleWorld simpleConfig
                                          sampleTicks).1))).
Proof.
  split; [reflexivity |].
  split; [vm_compute; reflexivity |].
  split; [vm_compute; reflexivity |].
  destruct (sampling_index_counts_acceptances sampleWorld simpleConfig sampleTicks
              sampleInputs eq_refl) as (_ & _ & Hexact & _).
  apply Hexact. vm_compute. reflexivity.
Defined.

(** Cancelling a heavy run of ten outputs after one rejected attempt:
    total 0, no error. *)
Lemma cancellation_returns_nil_witness :
  World_wf sampleWorld /\ Config_wf (heavyConfig 0 0)
  /\ heavy_allocatable (heavyConfig 0 0)
  /\ (spamPrelude sampleWorld (heavyConfig 0 0)).2 = Ok sampleInputs
  /\ (spamTransactions sampleWorld (heavyConfig 0 0) [Tick rejected; Done; Tick rejected]).2
     = Returned None
  /\ spamTransactions sampleWorld (heavyConfig 0 0) ([Tick rejected] ++ Done :: [Tick rejected])
     = ((spamTransactions sampleWorld (heavyConfig 0 0) [Tick rejected]).1
        ++ [EPrint (PrintTotal 0); ETickerStop], Returned None).
Proof.
  assert (Hc : Config_wf (heavyConfig 0 0)) by (apply heavyConfig_wf; apply small_in_range; lia).
  assert (Halloc : heavy_allocatable (heavyConfig 0 0))
    by (intros _; exact default_count_allocatable).
  split; [exact sampleWorld_wf |]. split; [exact Hc |]. split; [exact Halloc |].
  split; [reflexivity |]. split; [vm_compute; reflexivity |].
  assert (Hticks : Forall (fun e => e <> Done) [Tick rejected])
    by (repeat constructor; discriminate).
  destruct (cancellation_returns_nil sampleWorld (heavyConfig 0 0) sampleInputs
              [Tick rejected] [Tick rejected] sampleWorld_wf Hc Halloc eq_refl Hticks)
    as [Hrun _].
  exact Hrun.
Defined.

(** A rate of zero is rejected and nothing runs. *)
Lemma validation_guards_engine_witness :
  U64.in_range (TPS zeroRateConfig)
  /\ validateConfig (withChain zeroRateConfig "cosmoshub")
     = Some (errorsNew "tps must be greater than 0")
  /\ exists err,
       validateConfig (withChain zeroRateConfig "cosmoshub") = Some err
       /\ spamCmd_RunE sampleWorld zeroRateConfig "cosmoshub" sampleTicks
          = ([], Returned (Some err)).
Proof.
  assert (Hr : U64.in_range (TPS zeroRateConfig)) by (apply small_in_range; cbn; lia).
  split; [exact Hr |]. split; [reflexivity |].
  apply (proj1 (validation_guards_engine sampleWorld zeroRateConfig "cosmoshub"
                  sampleTicks Hr)).
  left. reflexivity.
Defined.

(** * More of the code *)

(** ** Account names *)

Lemma prefix_empty s : String.prefix "" s = true.
Proof. destruct s; reflexivity. Qed.

Lemma strings_Contains_space s :
  strings_Contains s " " = true <-> In " "%char (list_ascii_of_string s).
Proof.
  induction s as [| c rest IH]; cbn [strings_Contains list_ascii_of_string In].
  - split; [discriminate | contradiction].
  - cbn [String.prefix]. rewrite prefix_empty.
    destruct (ascii_dec " " c) as [<- | Hne].
    + split; [intros _; left; reflexivity | reflexivity].
    + cbn [orb]. rewrite IH. split; [intros H; right; exact H |].
      intros [Heq | H]; [congruence | exact H].
Qed.

(** X1: [validateAccountName] accepts exactly the names of 2 to 50 bytes
    without a space; a name of exactly 50 bytes is accepted. *)
Theorem validateAccountName_accepts (name : string) :
  validateAccountName name = None
  <-> (2 <= String.length name <= 50)%nat
      /\ ~ In " "%char (list_ascii_of_string name).
Proof.
  unfold validateAccountName.
  destruct (String.eqb_spec name "") as [-> | Hne].
  - split; [discriminate | cbn; intros [[H _] _]; lia].
  - destruct (strings_Contains name " ") eqn:Hsp.
    + apply strings_Contains_space in Hsp.
      split; [discriminate | intros [_ H]; contradiction].
    + assert (Hno : ~ In " "%char (list_ascii_of_string name)).
      { intros H. apply strings_Contains_space in H. congruence. }
      destruct (Nat.ltb_spec (String.length name) 2).
      * split; [discriminate | intros [[H2 _] _]; lia].
      * destruct (Nat.ltb_spec 50 (String.length name)).
        -- split; [discriminate | intros [[_ H2] _]; lia].
        -- split; [intros _; split; [lia | exact Hno] | reflexivity].
Qed.

(** ** Accounts in the keyring *)

Section KeyringCode.

Context {K : Type} `{Registry K}.

Ltac km_simpl :=
  repeat progress
    (unfold mbind, KM_bind, mret, KM_ret, kfail, kprint, callGetByName, callCreate,
       callImport, callDeleteByName, callList; cbn).

(** X2: for a name that does not validate, [getOrCreateAccount],
    [importAccount] and [deleteAccount] return the validation error
    without calling the registry, changing the keyring or printing. *)
Theorem invalid_name_touches_nothing (name : string) (err : error) (k : K) :
  validateAccountName name = Some err ->
  getOrCreateAccount name k = (k, [], inr err)
  /\ (forall secret passphrase prefix,
         importAccount name secret passphrase prefix k = (k, [], inr err))
  /\ deleteAccount name k = (k, [], inr err).
Proof.
  intros Hv. unfold getOrCreateAccount, importAccount, deleteAccount.
  rewrite Hv. repeat split.
Qed.

(** X3: [getOrCreateAccount] calls [Create] exactly when the name
    validates and the lookup fails with "does not exist".  When it reports
    a created account, that is the account [Create] made, and its mnemonic
    is printed; when it reports an existing one, the keyring is unchanged
    and nothing is printed. *)
Theorem getOrCreateAccount_creates_only_missing (name : string) (k : K) :
  (CallCreate name ∈ registryCalls (getOrCreateAccount name k).1.2
   <-> validateAccountName name = None
       /\ exists n, reg_GetByName k name = inr (AccountDoesNotExistError n))
  /\ (forall account,
         (getOrCreateAccount name k).2 = inl (account, true) ->
         exists mnemonic,
           reg_Create k name = ((getOrCreateAccount name k).1.1, inl (account, mnemonic))
           /\ LineMnemonic mnemonic ∈ printedLines (getOrCreateAccount name k).1.2)
  /\ (forall account,
         (getOrCreateAccount name k).2 = inl (account, false) ->
         reg_GetByName k name = inl account
         /\ (getOrCreateAccount name k).1.1 = k
         /\ printedLines (getOrCreateAccount name k).1.2 = []).
Proof.
  unfold getOrCreateAccount.
  destruct (validateAccountName name) as [err |] eqn:Hv.
  - km_simpl. split_and!; [split | |]; try (intros; discriminate).
    + intros Hin. apply elem_of_nil in Hin. contradiction.
    + intros [Hc _]. discriminate.
  - km_simpl.
    destruct (reg_GetByName k name) as [account | [n | e]] eqn:Hget; km_simpl.
    + split_and!; [split | |]; try (intros; discriminate).
      * intros Hin. apply list_elem_of_singleton in Hin. discriminate.
      * intros (_ & n & Hn). discriminate.
      * intros account' [= <-]. auto.
    + km_simpl.
      destruct (reg_Create k name) as [k' [[account mnemonic] | e]] eqn:Hcreate; km_simpl.
      * split_and!; [split | |]; try (intros; discriminate).
        -- intros _. eauto.
        -- intros _. set_solver.
        -- intros account' [= <-]. exists mnemonic. split; [reflexivity | set_solver].
      * split_and!; [split | |]; try (intros; discriminate).
        -- intros _. eauto.
        -- intros _. set_solver.
    + split_and!; [split | |]; try (intros; discriminate).
      * intros Hin. apply list_elem_of_singleton in Hin. discriminate.
      * intros (_ & n & Hn). discriminate.
Qed.

(** X4: [deleteAccount] calls [DeleteByName] exactly when the name
    validates and the lookup finds the account; for a missing account it
    fails with "does not exist" and leaves the keyring as it was. *)
Theorem deleteAccount_deletes_only_found (name : string) (k : K) :
  (CallDeleteByName name ∈ registryCalls (deleteAccount name k).1.2
   <-> validateAccountName name = None
       /\ exists account, reg_GetByName k name = inl account)
  /\ (validateAccountName name = None ->
      (exists n, reg_GetByName k name = inr (AccountDoesNotExistError n)) ->
      deleteAccount name k
      = (k, [KCall (CallGetByName name)], inr (errorsNew "account does not exist"))).
Proof.
  unfold deleteAccount.
  destruct (validateAccountName name) as [err |] eqn:Hv.
  - km_simpl. split; [| discriminate].
    split; [intros Hin; apply elem_of_nil in Hin; contradiction | intros [Hc _]; discriminate].
  - km_simpl.
    destruct (reg_GetByName k name) as [account | [n | e]] eqn:Hget; km_simpl.
    + split; [| intros _ [n Hn]; discriminate].
      km_simpl.
      destruct (reg_DeleteByName k name) as [k' [e |]]; km_simpl;
        (split; [intros _; eauto | intros _; set_solver]).
    + split; [| reflexivity].
      split; [intros Hin; apply list_elem_of_singleton in Hin; discriminate |].
      intros (_ & a & Ha). discriminate.
    + split; [| intros _ [n Hn]; discriminate].
      split; [intros Hin; apply list_elem_of_singleton in Hin; discriminate |].
      intros (_ & a & Ha). discriminate.
Qed.

(** The loop of [listAccounts] numbers its lines from [i + 1], one per
    account. *)
Lemma listAccounts_lines_lookup prefix (accounts : list cosmosaccount_Account) :
  forall (i j : nat) account,
    accounts !! j = Some account ->
    listAccounts_lines prefix i accounts !! j
    = Some match acc_Address account prefix with
           | inr err => LineAccountAddressError (i + j + 1) (acc_Name account) err
           | inl address => LineAccount (i + j + 1) (acc_Name account) address
           end.
Proof.
  induction accounts as [| a rest IH]; intros i j account Hj; [discriminate |].
  destruct j as [| j]; cbn [listAccounts_lines lookup list_lookup] in Hj |- *.
  - injection Hj as <-. rewrite Nat.add_0_r. reflexivity.
  - replace (i + S j + 1)%nat with (S i + j + 1)%nat by lia.
    exact (IH (S i) j account Hj).
Qed.

Lemma listAccounts_lines_length prefix (accounts : list cosmosaccount_Account) (i : nat) :
  List.length (listAccounts_lines prefix i accounts) = List.length accounts.
Proof.
  revert i. induction accounts as [| a rest IH]; intros i; [reflexivity |].
  cbn. rewrite IH. reflexivity.
Qed.

(** X5: when the registry lists accounts, [listAccounts] returns [nil]
    and leaves the keyring alone; for a non-empty list it prints the count
    and then one line per account, in order and numbered from 1, and an
    account whose address cannot be derived gets an error line without
    ending the listing. *)
Theorem listAccounts_numbers_every_account
    (prefix : string) (k : K) (accounts : list cosmosaccount_Account) :
  reg_List k = inl accounts ->
  accounts <> [] ->
  exists lines,
    listAccounts prefix k
    = (k, KCall CallList :: map KPrint (LineFound (List.length accounts) :: lines), inl tt)
    /\ List.length lines = List.length accounts
    /\ forall (j : nat) account,
         accounts !! j = Some account ->
         lines !! j
         = Some match acc_Address account prefix with
                | inr err => LineAccountAddressError (j + 1) (acc_Name account) err
                | inl address => LineAccount (j + 1) (acc_Name account) address
                end.
Proof.
  intros Hlist Hne. exists (listAccounts_lines prefix 0 accounts).
  split; [| split].
  - unfold listAccounts. km_simpl. rewrite Hlist.
    destruct accounts as [| a rest]; [contradiction | reflexivity].
  - apply listAccounts_lines_length.
  - intros j account Hj. apply (listAccounts_lines_lookup prefix accounts 0 j account Hj).
Qed.

Context `{!RegistryLaws K}.

(** X6: after a successful [getOrCreateAccount], calling it again for the
    same name finds the same account, reports it as not created, creates
    nothing and leaves the keyring as it is. *)
Theorem getOrCreateAccount_twice (name : string) (k k' : K) t account created :
  getOrCreateAccount name k = (k', t, inl (account, created)) ->
  getOrCreateAccount name k' = (k', [KCall (CallGetByName name)], inl (account, false)).
Proof.
  unfold getOrCreateAccount.
  destruct (validateAccountName name) as [err |] eqn:Hv; [discriminate |].
  km_simpl.
  destruct (reg_GetByName k name) as [a | [n | e]] eqn:Hget; km_simpl.
  - intros [= <- <- <- <-]. rewrite Hget. reflexivity.
  - destruct (reg_Create k name) as [k1 [[a mnemonic] | e]] eqn:Hcreate; km_simpl;
      [| discriminate].
    intros [= <- <- <- <-].
    rewrite (create_then_get _ _ _ _ _ Hcreate). reflexivity.
  - discriminate.
Qed.

(** X7: after a successful [deleteAccount], deleting the same name again
    fails with "does not exist" and does not call [DeleteByName]. *)
Theorem deleteAccount_twice (name : string) (k k' : K) t :
  deleteAccount name k = (k', t, inl tt) ->
  deleteAccount name k'
  = (k', [KCall (CallGetByName name)], inr (errorsNew "account does not exist")).
Proof.
  unfold deleteAccount.
  destruct (validateAccountName name) as [err |] eqn:Hv; [discriminate |].
  km_simpl.
  destruct (reg_GetByName k name) as [a | [n | e]] eqn:Hget; km_simpl; [| discriminate ..].
  destruct (reg_DeleteByName k name) as [k1 [e |]] eqn:Hdel; km_simpl; [discriminate |].
  intros [= <- <-].
  destruct (delete_then_get _ _ _ Hdel) as [n ->]. reflexivity.
Qed.

(** X8: [importAccount] does not undo an import: when the registry has
    imported the account and its address cannot be derived, the error is
    returned and the account is in the keyring all the same. *)
Theorem importAccount_keeps_account_on_address_error
    (name secret passphrase prefix : string) (k k' : K) account err :
  validateAccountName name = None ->
  secret <> "" ->
  reg_Import k name secret passphrase = (k', inl account) ->
  acc_Address account prefix = inr err ->
  importAccount name secret passphrase prefix k
  = (k', [KCall (CallImport name secret passphrase)],
     inr (Errorf "failed to get account address" err))
  /\ reg_GetByName k' name = inl account.
Proof.
  intros Hv Hsecret Himport Haddr. split.
  - unfold importAccount. rewrite Hv.
    destruct (String.eqb_spec secret ""); [contradiction |].
    km_simpl. rewrite Himport. km_simpl. rewrite Haddr. reflexivity.
  - exact (import_then_get _ _ _ _ _ _ Himport).
Qed.

End KeyringCode.

(** ** Chain information *)

(** X9: [getChainInfo] returns two empty strings with every error; when
    it succeeds the chain is in the registry's map, its enriched record has
    at least one RPC endpoint, the endpoint returned is the address of the
    first one, and the prefix returned is the record's and is not empty. *)
Theorem getChainInfo_results (registry : ChainRegistry) (chainName : string) :
  (forall err, (getChainInfo registry chainName).2 = Some err ->
               (getChainInfo registry chainName).1 = ("", ""))
  /\ ((getChainInfo registry chainName).2 = None ->
      (getChainInfo registry chainName).1.2 <> ""
      /\ cr_FetchChains registry = None
      /\ exists chain enriched first rest,
           cr_Chains registry !! chainName = Some chain
           /\ cr_EnrichChain registry chain = inl enriched
           /\ chain_RPC enriched = first :: rest
           /\ (getChainInfo registry chainName).1
              = (rpc_Address first, chain_Bech32Prefix enriched)).
Proof.
  unfold getChainInfo.
  destruct (cr_FetchChains registry) as [e |]; [split; [reflexivity | discriminate] |].
  destruct (cr_Chains registry !! chainName) as [chain |] eqn:Hchain;
    [| split; [reflexivity | discriminate]].
  destruct (cr_EnrichChain registry chain) as [enriched | e] eqn:Henrich;
    [| split; [reflexivity | discriminate]].
  destruct (chain_RPC enriched) as [| first rest] eqn:Hrpc;
    [split; [reflexivity | discriminate] |].
  cbn zeta.
  destruct (String.eqb_spec (chain_Bech32Prefix enriched) "") as [Hempty | Hne];
    [split; [reflexivity | discriminate] |].
  split; [discriminate |].
  intros _. cbn [fst snd]. split; [exact Hne |]. split; [reflexivity |].
  exists chain, enriched, first, rest. auto.
Qed.

(** X10: [initializeKeyring] returns no registry and an empty prefix with
    every error, and fails for the empty chain name whatever the registry
    holds; when it succeeds, the chain name is not empty, the prefix is the
    non-empty one [getChainInfo] resolved, and the registry is the one
    created for the keyring home and that prefix. *)
Theorem initializeKeyring_results {K : Type} (kw : KeyringWorld K) (chainName : string) :
  (forall err, (initializeKeyring kw chainName).2 = Some err ->
               (initializeKeyring kw chainName).1 = (None, ""))
  /\ (chainName = "" ->
      initializeKeyring kw chainName
      = (None, "", Some (errorsNew "chain name cannot be empty")))
  /\ ((initializeKeyring kw chainName).2 = None ->
      chainName <> ""
      /\ (initializeKeyring kw chainName).1.2 <> ""
      /\ exists rpcEndpoint homeDir registry,
           getChainInfo (kw_chains kw) chainName
           = (rpcEndpoint, (initializeKeyring kw chainName).1.2, None)
           /\ kw_getKeyringHome kw = inl homeDir
           /\ kw_cosmosaccountNew kw homeDir (initializeKeyring kw chainName).1.2
              = inl registry
           /\ (initializeKeyring kw chainName).1.1 = Some registry).
Proof.
  unfold initializeKeyring.
  destruct (String.eqb_spec chainName "") as [Hempty | Hne].
  - split; [reflexivity |]. split; [reflexivity | discriminate].
  - pose proof (getChainInfo_results (kw_chains kw) chainName) as [_ Hok].
    destruct (getChainInfo (kw_chains kw) chainName) as [[rpc prefix] [e |]] eqn:Hinfo.
    + split; [reflexivity |]. split; [contradiction | discriminate].
    + destruct (Hok eq_refl) as (Hprefix & _). cbn [fst snd] in Hprefix.
      destruct (kw_getKeyringHome kw) as [homeDir | e] eqn:Hhome.
      * destruct (kw_cosmosaccountNew kw homeDir prefix) as [registry | e] eqn:Hnew.
        -- split; [discriminate |]. split; [contradiction |].
           intros _. cbn [fst snd]. split; [exact Hne |]. split; [exact Hprefix |].
           exists rpc, homeDir, registry. auto.
        -- split; [reflexivity |]. split; [contradiction | discriminate].
      * split; [reflexivity |]. split; [contradiction | discriminate].
Qed.

(** ** The output count and the split, continued *)

(** X11: without override and with a gas limit of at least 65000, the
    output count is at least 1 and is the largest number of outputs whose
    estimated gas, 50000 plus 15000 each, stays within the gas limit. *)
Theorem calculateAddressCount_fits_gas (config : Config) :
  HeavyAddressCount config = 0 ->
  65000 <= GasLimit config < U64.modulus ->
  1 <= calculateAddressCount config
  /\ 50000 + 15000 * calculateAddressCount config <= GasLimit config
  /\ GasLimit config < 50000 + 15000 * (calculateAddressCount config + 1).
Proof.
  intros Hov [Hlo Hhi].
  assert (Hval : calculateAddressCount config = (GasLimit config - 50000) / 15000).
  { unfold calculateAddressCount. rewrite Hov. cbn [Z.ltb Z.compare].
    destruct (Z.ltb_spec 0 (GasLimit config)); [| lia].
    unfold estimatedCount, U64.div. rewrite U64Facts.sub_small by lia.
    destruct (Z.ltb_spec 0 ((GasLimit config - 50000) / 15000)) as [_ | Hle];
      [reflexivity |].
    assert (1 <= (GasLimit config - 50000) / 15000)
      by (apply Z.div_le_lower_bound; lia).
    lia. }
  rewrite Hval.
  pose proof (Z.mul_div_le (GasLimit config - 50000) 15000 ltac:(lia)).
  pose proof (Z.mul_succ_div_gt (GasLimit config - 50000) 15000 ltac:(lia)).
  assert (1 <= (GasLimit config - 50000) / 15000)
    by (apply Z.div_le_lower_bound; lia).
  lia.
Qed.

Section HeavyMore.
Import sdk CoinFacts.

Variable config : Config.
Variable amount : Coins.
Variable accountAddr : string.
Hypothesis Hconfig : Config_wf config.
Hypothesis Hamount : Coins_wf amount.

(** X12: when the split is used (some share is positive) and the output
    slice can be allocated, the input of the heavy message is the amount
    less, per denomination, the remainder of its division by the output
    count: less than one unit per output is left out, and never more than
    the amount is moved. *)
Theorem heavy_total_rounds_down :
  calculateAddressCount config <= maxOutputs ->
  Exists (fun c => 0 < Amount c / calculateAddressCount config) amount ->
  exists input outputs,
    heavyMultiSend config amount accountAddr = Ok (MsgMultiSend [input] outputs)
    /\ in_Coins input = map (roundDown (calculateAddressCount config)) amount
    /\ Forall (fun c => 0 <= Amount c mod calculateAddressCount config
                             < calculateAddressCount config) amount.
Proof.
  intros Halloc Hex.
  pose proof (calculateAddressCount_pos config) as Hpos.
  pose proof (calculateAddressCount_range config Hconfig) as [_ Hlt].
  assert (Hne : Exists (fun c => Amount c / calculateAddressCount config <> 0) amount).
  { eapply Exists_impl; [exact Hex |]. cbn. intros c Hc. lia. }
  pose proof (heavyAmountPerOutput_split _ _ Hpos Hamount Hne) as Hper.
  destruct (heavyAmountPerOutput_ok _ _ Hpos Hamount Hlt) as (per & Hper' & Hbound).
  rewrite Hper in Hper'. injection Hper' as <-.
  eexists _, _.
  split; [exact (heavyMultiSend_of config amount accountAddr _ Halloc Hper Hbound) |].
  cbn [in_Coins]. split.
  - rewrite <- list_fmap_compose. apply list_fmap_ext. intros _ c _.
    unfold compose, mulCoin, quoCoin, roundDown. cbn [Denom Amount]. f_equal.
    pose proof (Z.div_mod (Amount c) (calculateAddressCount config) ltac:(lia)). lia.
  - apply Forall_forall. intros c _. apply Z.mod_pos_bound. exact Hpos.
Qed.

(** X13: for an amount that is not zero (as [parseAmount] guarantees),
    the per-output amount is never zero either: the outputs of a heavy
    message always carry something. *)
Theorem heavy_outputs_never_zero :
  IsZero amount = false ->
  exists perOutput,
    heavyAmountPerOutput (calculateAddressCount config) amount = Ok perOutput
    /\ IsZero perOutput = false.
Proof.
  intros Hnz.
  pose proof (calculateAddressCount_pos config) as Hpos.
  destruct (shares_zero_or_not (calculateAddressCount config) amount) as [Hall | Hex].
  - apply IsZero_false in Hnz.
    assert (Hshape : exists first rest, amount = first :: rest).
    { clear -Hnz. destruct amount as [| first rest]; [inversion Hnz | eauto]. }
    destruct Hshape as (first & rest & Heq).
    exists [ {| Denom := Denom first; Amount := 1 |} ].
    split; [exact (heavyAmountPerOutput_unit _ _ Hpos Hamount first rest Heq Hall) |].
    reflexivity.
  - exists (map (quoCoin (calculateAddressCount config)) amount).
    split; [exact (heavyAmountPerOutput_split _ _ Hpos Hamount Hex) |].
    apply IsZero_false. apply Exists_exists in Hex as (c & Hin & Hc).
    apply Exists_exists. exists (quoCoin (calculateAddressCount config) c).
    split; [| exact Hc].
    apply list_elem_of_fmap. exists c. split; [reflexivity | exact Hin].
Qed.

End HeavyMore.

(** ** The scheduler *)

(** X14: for a rate from 1 to 1000000000 the ticker interval is the
    whole number of nanoseconds [floor(10^9 / tps)], at least 1, and the
    ticker starts; the rate it realises is at least the configured one. *)
Theorem tickerInterval_positive (tps : Z) :
  1 <= tps <= 1000000000 ->
  tickerInterval tps = Ok (1000000000 / tps)
  /\ 1 <= 1000000000 / tps
  /\ 1000000000 / tps * tps <= 1000000000 < (1000000000 / tps + 1) * tps
  /\ NewTicker (1000000000 / tps) = ([ETickerStart (1000000000 / tps)], Ok tt).
Proof.
  intros [Hlo Hhi].
  assert (Hq : 1 <= 1000000000 / tps) by (apply Z.div_le_lower_bound; lia).
  split; [| split; [exact Hq | split]].
  - unfold tickerInterval, I64.of_uint64, time_Second.
    destruct (Z.ltb_spec tps (2 ^ 63)); [| lia].
    destruct (Z.eqb_spec tps 0); [lia |].
    rewrite Z.quot_div_nonneg by lia. reflexivity.
  - pose proof (Z.mul_div_le 1000000000 tps ltac:(lia)).
    pose proof (Z.mul_succ_div_gt 1000000000 tps ltac:(lia)). lia.
  - unfold NewTicker. destruct (Z.leb_spec (1000000000 / tps) 0); [lia | reflexivity].
Qed.

(** A rate above 10^9 gives an interval that is not positive. *)
Lemma tickerInterval_too_fast (tps : Z) :
  1000000000 < tps < U64.modulus ->
  exists interval, tickerInterval tps = Ok interval /\ interval <= 0.
Proof.
  intros [Hlo Hhi]. unfold tickerInterval, I64.of_uint64, time_Second, U64.modulus in *.
  destruct (Z.ltb_spec tps (2 ^ 63)).
  - destruct (Z.eqb_spec tps 0); [lia |].
    eexists. split; [reflexivity |]. rewrite Z.quot_small; lia.
  - destruct (Z.eqb_spec (tps - 2 ^ 64) 0); [lia |].
    eexists. split; [reflexivity |].
    rewrite <- (Z.opp_involutive (tps - 2 ^ 64)), Z.quot_opp_r by lia.
    assert (0 <= 1000000000 ÷ - (tps - 2 ^ 64)) by (apply Z.quot_pos; lia).
    lia.
Qed.

(** X15: both revisions of [validateConfig] agree on every rate that is
    not negative; the revision with a signed rate also rejects every
    negative one. *)
Theorem validateConfig_revisions (config : Config) :
  (0 <= TPS config ->
   validateConfig_int (Chain config) (Account config) (Fees config) (Memo config)
     (TPS config)
   = validateConfig config)
  /\ (forall tps, tps < 0 ->
         validateConfig_int (Chain config) (Account config) (Fees config) (Memo config) tps
         <> None).
Proof.
  unfold validateConfig_int, validateConfig. split.
  - intros Hpos.
    destruct (String.eqb (Chain config) ""); [reflexivity |].
    destruct (String.eqb (Account config) ""); [reflexivity |].
    destruct (String.eqb (Fees config) ""); [reflexivity |].
    destruct (String.eqb (Memo config) ""); [reflexivity |].
    destruct (Z.leb_spec (TPS config) 0), (Z.eqb_spec (TPS config) 0);
      try reflexivity; lia.
  - intros tps Hneg.
    destruct (String.eqb (Chain config) ""); [discriminate |].
    destruct (String.eqb (Account config) ""); [discriminate |].
    destruct (String.eqb (Fees config) ""); [discriminate |].
    destruct (String.eqb (Memo config) ""); [discriminate |].
    destruct (Z.leb_spec tps 0); [discriminate | lia].
Qed.

(** ** The loop, continued *)

Section LoopMore.

Variable w : World.
Variable config : Config.
Variable amount : sdk.Coins.
Variable bech32Prefix : string.
Variable sequence : Z.

Local Abbreviation send := (if Heavy config then sendHeavyTransaction else sendTransaction).
Local Abbreviation loop := (spamLoop w config amount bech32Prefix sequence).

(** The trace of the loop, one pulse at a time. *)
Lemma loop_tick_trace txCount r events :
  (loop txCount (Tick r :: events)).1
  = (send w config amount txCount bech32Prefix (Memo config) (U64.add sequence txCount) r).1
    ++ EAttempt (Heavy config) txCount (U64.add sequence txCount)
         (send w config amount txCount bech32Prefix (Memo config)
            (U64.add sequence txCount) r).2
    :: match (send w config amount txCount bech32Prefix (Memo config)
                (U64.add sequence txCount) r).2 with
       | Ok _ =>
           if TPS config =? 0 then [ETickerStop]
           else (if U64.rem (U64.add txCount 1) (TPS config) =? 0
                 then [EPrint (PrintSent (U64.add txCount 1) (TPS config))] else [])
                ++ (loop (U64.add txCount 1) events).1
       | Err err => ELog (LogSendFailed err) :: (loop txCount events).1
       | Panic _ => [ETickerStop]
       end.
Proof.
  cbn [spamLoop].
  destruct (send w config amount txCount bech32Prefix (Memo config)
              (U64.add sequence txCount) r) as [t res].
  cbn [fst snd]. destruct res as [[] | err | m].
  - destruct (TPS config =? 0); [reflexivity |].
    unfold after. cbn [fst]. rewrite <- app_assoc. reflexivity.
  - unfold after. cbn [fst]. rewrite <- app_assoc. reflexivity.
  - reflexivity.
Qed.

Lemma loop_tick_status txCount r events :
  (loop txCount (Tick r :: events)).2
  = match (send w config amount txCount bech32Prefix (Memo config)
             (U64.add sequence txCount) r).2 with
    | Ok _ =>
        if TPS config =? 0 then Panicked "integer divide by zero"
        else (loop (U64.add txCount 1) events).2
    | Err err => (loop txCount events).2
    | Panic msg => Panicked msg
    end.
Proof.
  cbn [spamLoop].
  destruct (send w config amount txCount bech32Prefix (Memo config)
              (U64.add sequence txCount) r) as [t res].
  cbn [fst snd]. destruct res as [[] | err | m]; [| reflexivity ..].
  destruct (TPS config =? 0); reflexivity.
Qed.

(** What one call of the send function leaves in the trace besides its
    submission. *)
Lemma send_trace_more txNum memo sequence' r :
  failureLogs (send w config amount txNum bech32Prefix memo sequence' r).1 = []
  /\ milestones (send w config amount txNum bech32Prefix memo sequence' r).1 = []
  /\ tickerStops (send w config amount txNum bech32Prefix memo sequence' r).1 = [].
Proof.
  destruct (Heavy config).
  - unfold sendHeavyTransaction.
    destruct (w_accountAddress w bech32Prefix) as [addr | e | m]; cbn;
      [| repeat split; reflexivity ..].
    destruct (heavyMultiSend config amount addr) as [msg | e | m]; cbn;
      [| repeat split; reflexivity ..].
    destruct r as [e | e | code hash]; cbn; [repeat split; reflexivity .. |].
    destruct (code =? 0); cbn; [| repeat split; reflexivity].
    destruct (U64.rem txNum 100 =? 0); cbn; repeat split; reflexivity.
  - unfold sendTransaction.
    destruct (w_accountAddress w bech32Prefix) as [addr | e | m]; cbn;
      [| repeat split; reflexivity ..].
    destruct r as [e | e | code hash]; cbn; [repeat split; reflexivity .. |].
    destruct (code =? 0); cbn; [| repeat split; reflexivity].
    destruct (U64.rem txNum 100 =? 0); cbn; repeat split; reflexivity.
Qed.

(** Each call creates one transaction: the same message with the same
    options, whatever the counter and the sequence. *)
Lemma send_created addr msg txNum sequence' r :
  w_accountAddress w bech32Prefix = Ok addr ->
  (if Heavy config then heavyMultiSend config amount addr
   else Ok (MsgSend addr addr amount)) = Ok msg ->
  createdTxs (send w config amount txNum bech32Prefix (Memo config) sequence' r).1
  = [(txOptions config, msg)].
Proof.
  intros Haddr. destruct (Heavy config); intros Hmsg.
  - unfold sendHeavyTransaction. rewrite Haddr. cbn. rewrite Hmsg. cbn.
    destruct r as [e | e | code hash]; cbn; try reflexivity.
    destruct (code =? 0); cbn; [| reflexivity].
    destruct (U64.rem txNum 100 =? 0); cbn; reflexivity.
  - injection Hmsg as <-. unfold sendTransaction. rewrite Haddr. cbn.
    destruct r as [e | e | code hash]; cbn; try reflexivity.
    destruct (code =? 0); cbn; [| reflexivity].
    destruct (U64.rem txNum 100 =? 0); cbn; reflexivity.
Qed.

Lemma failureLogs_app t1 t2 : failureLogs (t1 ++ t2) = failureLogs t1 ++ failureLogs t2.
Proof. apply omap_app. Qed.

Lemma milestones_app t1 t2 : milestones (t1 ++ t2) = milestones t1 ++ milestones t2.
Proof. apply omap_app. Qed.

Lemma createdTxs_app t1 t2 : createdTxs (t1 ++ t2) = createdTxs t1 ++ createdTxs t2.
Proof. apply omap_app. Qed.

Lemma tickerStops_app t1 t2 : tickerStops (t1 ++ t2) = tickerStops t1 ++ tickerStops t2.
Proof. apply List.filter_app. Qed.

(** Every failed attempt is logged once, with its error, in order. *)
Lemma loop_failureLogs events :
  forall txCount,
    failureLogs (loop txCount events).1
    = omap attemptError (attempts (loop txCount events).1).
Proof.
  induction events as [| [r |] events IH]; intros txCount; [reflexivity | | reflexivity].
  rewrite loop_tick_trace, failureLogs_app, attempts_app.
  destruct (send_trace_more txCount (Memo config) (U64.add sequence txCount) r) as (-> & _).
  destruct (send_trace w config amount bech32Prefix txCount (Memo config)
              (U64.add sequence txCount) r) as [-> _].
  cbn [app].
  destruct ((send w config amount txCount bech32Prefix (Memo config)
               (U64.add sequence txCount) r).2) as [[] | err | m]; cbn.
  - destruct (TPS config =? 0); [reflexivity |].
    rewrite failureLogs_app, attempts_app, IH.
    destruct (U64.rem (U64.add txCount 1) (TPS config) =? 0); reflexivity.
  - rewrite IH. reflexivity.
  - reflexivity.
Qed.

(** Without a panic, the loop is waiting until it takes the cancellation,
    and then has returned [nil]. *)
Lemma loop_status addr events :
  Config_wf config -> sdk.Coins_wf amount -> heavy_allocatable config ->
  w_accountAddress w bech32Prefix = Ok addr ->
  TPS config <> 0 ->
  forall txCount,
    (loop txCount events).2 = if existsb isDone events then Returned None else Running.
Proof.
  intros Hc Ha Halloc Haddr Htps.
  induction events as [| [r |] events IH]; intros txCount; [reflexivity | | reflexivity].
  rewrite loop_tick_status. cbn [existsb isDone orb].
  pose proof (send_no_panic w config amount bech32Prefix txCount (Memo config)
                (U64.add sequence txCount) r addr Hc Ha Halloc Haddr) as Hnp.
  destruct ((send w config amount txCount bech32Prefix (Memo config)
               (U64.add sequence txCount) r).2) as [[] | err | m].
  - destruct (Z.eqb_spec (TPS config) 0); [contradiction | apply IH].
  - apply IH.
  - exfalso. exact (Hnp m eq_refl).
Qed.

(** The ticker is stopped once, when the loop ends, and not before. *)
Lemma loop_tickerStops events :
  forall txCount,
    tickerStops (loop txCount events).1
    = match (loop txCount events).2 with Running => [] | _ => [ETickerStop] end.
Proof.
  induction events as [| [r |] events IH]; intros txCount; [reflexivity | | reflexivity].
  rewrite loop_tick_trace, loop_tick_status, tickerStops_app.
  destruct (send_trace_more txCount (Memo config) (U64.add sequence txCount) r)
    as (_ & _ & ->).
  cbn [app tickerStops List.filter isTickerStop].
  destruct ((send w config amount txCount bech32Prefix (Memo config)
               (U64.add sequence txCount) r).2) as [[] | err | m].
  - destruct (TPS config =? 0); [reflexivity |].
    fold (tickerStops ((if U64.rem (U64.add txCount 1) (TPS config) =? 0
                        then [EPrint (PrintSent (U64.add txCount 1) (TPS config))]
                        else []) ++ (loop (U64.add txCount 1) events).1)).
    rewrite tickerStops_app, IH.
    destruct (U64.rem (U64.add txCount 1) (TPS config) =? 0); reflexivity.
  - cbn [List.filter isTickerStop]. apply IH.
  - reflexivity.
Qed.

(** Every attempt creates the same transaction. *)
Lemma loop_createdTxs addr msg events :
  w_accountAddress w bech32Prefix = Ok addr ->
  (if Heavy config then heavyMultiSend config amount addr
   else Ok (MsgSend addr addr amount)) = Ok msg ->
  forall txCount,
    createdTxs (loop txCount events).1
    = replicate (List.length (attempts (loop txCount events).1)) (txOptions config, msg).
Proof.
  intros Haddr Hmsg.
  induction events as [| [r |] events IH]; intros txCount; [reflexivity | | reflexivity].
  rewrite loop_tick_trace, createdTxs_app, attempts_app.
  rewrite (send_created addr msg txCount (U64.add sequence txCount) r Haddr Hmsg).
  destruct (send_trace w config amount bech32Prefix txCount (Memo config)
              (U64.add sequence txCount) r) as [-> _].
  cbn [app].
  destruct ((send w config amount txCount bech32Prefix (Memo config)
               (U64.add sequence txCount) r).2) as [[] | err | m]; cbn.
  - destruct (TPS config =? 0); [reflexivity |].
    rewrite createdTxs_app, attempts_app, IH.
    destruct (U64.rem (U64.add txCount 1) (TPS config) =? 0); reflexivity.
  - rewrite IH. reflexivity.
  - reflexivity.
Qed.

End LoopMore.

Lemma div_succ (c T : Z) :
  0 < T -> 0 <= c ->
  (c + 1) / T - c / T = if (c + 1) mod T =? 0 then 1 else 0.
Proof.
  intros HT Hc.
  pose proof (Z.div_mod c T ltac:(lia)) as Hdm.
  pose proof (Z.mod_pos_bound c T HT) as Hr.
  destruct (Z.eq_dec (c mod T + 1) T) as [Heq | Hne].
  - assert (Hd : (c + 1) / T = c / T + 1)
      by (symmetry; apply (Z.div_unique_pos (c + 1) T (c / T + 1) 0); lia).
    assert (Hm : (c + 1) mod T = 0)
      by (symmetry; apply (Z.mod_unique_pos (c + 1) T (c / T + 1) 0); lia).
    rewrite Hd, Hm. cbn. lia.
  - assert (Hd : (c + 1) / T = c / T)
      by (symmetry; apply (Z.div_unique_pos (c + 1) T (c / T) (c mod T + 1)); lia).
    assert (Hm : (c + 1) mod T = c mod T + 1)
      by (symmetry; apply (Z.mod_unique_pos (c + 1) T (c / T) (c mod T + 1)); lia).
    rewrite Hd, Hm. destruct (Z.eqb_spec (c mod T + 1) 0); lia.
Qed.

Lemma milestones_loop_tick w config amount bech32Prefix sequence txCount r events :
  milestones (spamLoop w config amount bech32Prefix sequence txCount (Tick r :: events)).1
  = match ((if Heavy config then sendHeavyTransaction else sendTransaction)
             w config amount txCount bech32Prefix (Memo config)
             (U64.add sequence txCount) r).2 with
    | Ok _ =>
        if TPS config =? 0 then []
        else (if U64.rem (U64.add txCount 1) (TPS config) =? 0
              then [(U64.add txCount 1, TPS config)] else [])
             ++ milestones (spamLoop w config amount bech32Prefix sequence
                              (U64.add txCount 1) events).1
    | Err _ => milestones (spamLoop w config amount bech32Prefix sequence txCount events).1
    | Panic _ => []
    end.
Proof.
  rewrite loop_tick_trace, milestones_app.
  destruct (send_trace_more w config amount bech32Prefix txCount (Memo config)
              (U64.add sequence txCount) r) as (_ & -> & _).
  destruct (((if Heavy config then sendHeavyTransaction else sendTransaction)
               w config amount txCount bech32Prefix (Memo config)
               (U64.add sequence txCount) r).2) as [[] | err | m];
    [| reflexivity ..].
  destruct (TPS config =? 0); [reflexivity |].
  change (milestones (?a :: ?l)) with (milestones ([a] ++ l)).
  rewrite !milestones_app.
  destruct (U64.rem (U64.add txCount 1) (TPS config) =? 0); reflexivity.
Qed.

(** The milestone lines of the loop: one for each multiple of the rate the
    counter reaches. *)
Lemma loop_milestones w config amount bech32Prefix sequence events :
  0 < TPS config ->
  forall txCount,
    0 <= txCount ->
    txCount
    + Z.of_nat (acceptedCount
                  (attempts (spamLoop w config amount bech32Prefix sequence txCount events).1))
    < U64.modulus ->
    Forall (fun m =>
              m.2 = TPS config
              /\ txCount < m.1
                 <= txCount
                    + Z.of_nat (acceptedCount
                                  (attempts (spamLoop w config amount bech32Prefix sequence
                                               txCount events).1))
              /\ m.1 mod TPS config = 0)
      (milestones (spamLoop w config amount bech32Prefix sequence txCount events).1)
    /\ Z.of_nat (List.length
                   (milestones (spamLoop w config amount bech32Prefix sequence
                                  txCount events).1))
       = (txCount
          + Z.of_nat (acceptedCount
                        (attempts (spamLoop w config amount bech32Prefix sequence
                                     txCount events).1))) / TPS config
         - txCount / TPS config.
Proof.
  intros HT.
  induction events as [| [r |] events IH]; intros txCount Hc;
    [cbn; intros _; split; [constructor | rewrite Z.add_0_r; lia] | |
     cbn; intros _; split; [constructor | rewrite Z.add_0_r; lia]].
  rewrite attempts_loop_tick, milestones_loop_tick, acceptedCount_cons.
  unfold accepted. cbn [att_result].
  destruct (((if Heavy config then sendHeavyTransaction else sendTransaction)
               w config amount txCount bech32Prefix (Memo config)
               (U64.add sequence txCount) r).2) as [[] | err | m].
  - destruct (Z.eqb_spec (TPS config) 0) as [H0 | _]; [lia |].
    intros Hbound.
    assert (Hadd : U64.add txCount 1 = txCount + 1).
    { apply U64Facts.add_small; lia. }
    rewrite Hadd in *.
    destruct (IH (txCount + 1) ltac:(lia) ltac:(lia)) as [Hall Hlen].
    unfold U64.rem.
    rewrite length_app, (Nat2Z.inj_add (List.length _) (List.length _)), Hlen.
    split.
    + apply Forall_app. split.
      * destruct (Z.eqb_spec ((txCount + 1) mod TPS config) 0) as [Hm | _];
          [| constructor].
        constructor; [| constructor]. cbn [fst snd].
        split_and!; try reflexivity; try lia; exact Hm.
      * eapply Forall_impl; [exact Hall |]. cbn. intros m (Ht & Hr & Hm).
        split_and!; try assumption; lia.
    + pose proof (div_succ txCount (TPS config) HT Hc) as Hds.
      replace (txCount + Z.of_nat (1 + acceptedCount
                 (attempts (spamLoop w config amount bech32Prefix sequence
                              (txCount + 1) events).1)))
        with (txCount + 1 + Z.of_nat (acceptedCount
                 (attempts (spamLoop w config amount bech32Prefix sequence
                              (txCount + 1) events).1))) by lia.
      destruct (Z.eqb_spec ((txCount + 1) mod TPS config) 0); cbn [List.length]; lia.
  - intros Hbound. rewrite Nat.add_0_l in *. exact (IH txCount Hc Hbound).
  - intros _. cbn. split; [constructor | rewrite Z.add_0_r; lia].
Qed.

(** ** More about whole runs *)

Section PreludeMore.

Variable w : World.
Variable config : Config.

Ltac prelude_case :=
  match goal with
  | |- context [w_getChainInfo w ?c] => destruct (w_getChainInfo w c) as [[? ?] | ? | ?] eqn:?
  | |- context [w_getKeyringHome w] => destruct (w_getKeyringHome w) eqn:?
  | |- context [w_cosmosclientNew w ?a ?b ?c ?d] => destruct (w_cosmosclientNew w a b c d) eqn:?
  | |- context [w_clientAccount w ?a] => destruct (w_clientAccount w a) eqn:?
  | |- context [w_accountAddress w ?a] => destruct (w_accountAddress w a) eqn:?
  | |- context [w_queryAccount w ?n ?a] => destruct (w_queryAccount w n a) as [[[? | ? | ?]] | ? | ?] eqn:?
  | |- context [parseAmount w ?a] => destruct (parseAmount w a) eqn:?
  | |- context [tickerInterval ?a] => destruct (tickerInterval a) eqn:?
  | |- context [Z.leb ?a ?b] => destruct (Z.leb_spec a b)
  end; cbn -[parseAmount tickerInterval].

(** Before the loop no failure is logged, no milestone printed, no
    transaction created and no ticker stopped. *)
Lemma spamPrelude_quiet :
  failureLogs (spamPrelude w config).1 = []
  /\ milestones (spamPrelude w config).1 = []
  /\ createdTxs (spamPrelude w config).1 = []
  /\ tickerStops (spamPrelude w config).1 = [].
Proof.
  unfold spamPrelude, verifyAccountExists, fetchAccountSequence, NewTicker.
  destruct (String.eqb (RPC config) ""); cbn -[parseAmount tickerInterval];
    repeat prelude_case; repeat split; reflexivity.
Qed.

Lemma spamPrelude_trace_shape :
  match (spamPrelude w config).2 with
  | Ok li =>
      exists info addr interval,
        w_getChainInfo w (Chain config) = Ok info
        /\ li_bech32Prefix li = info.2
        /\ w_accountAddress w (li_bech32Prefix li) = Ok addr
        /\ tickerInterval (TPS config) = Ok interval
        /\ 0 < interval
        /\ (spamPrelude w config).1
           = [ELog (if String.eqb (RPC config) "" then LogRegistryRPC info.1
                    else LogCustomRPC (RPC config));
              EVerifyAccountQuery addr;
              EFetchSequenceQuery addr;
              ELog (LogCurrentSequence (li_sequence li));
              ETickerStart interval]
  | _ => True
  end.
Proof.
  unfold spamPrelude, verifyAccountExists, fetchAccountSequence, NewTicker.
  destruct (String.eqb (RPC config) ""); cbn -[parseAmount tickerInterval];
    repeat prelude_case; try exact I; simplify_eq;
    (eexists (_, _), _, _; cbn [fst snd li_bech32Prefix li_sequence];
     split_and!; try eassumption; try reflexivity; lia).
Qed.

Lemma spamPrelude_amount_wf li :
  World_wf w -> (spamPrelude w config).2 = Ok li -> sdk.Coins_wf (li_amount li).
Proof.
  intros [_ Hparse] Hli.
  destruct (spamPrelude_ok w config li Hli) as (_ & _ & _ & _ & _ & Hamt & _).
  unfold parseAmount in Hamt. destruct (String.eqb (Fees config) ""); [discriminate |].
  destruct (w_ParseCoinsNormalized w (Fees config)) as [coins | e | m] eqn:Hp;
    [| discriminate ..].
  destruct (sdk.IsZero coins); [discriminate |].
  injection Hamt as <-. exact (Hparse _ _ Hp).
Qed.

Lemma spamPrelude_rate_positive li :
  Config_wf config -> (spamPrelude w config).2 = Ok li -> 0 < TPS config.
Proof.
  intros (Ht & _) Hli.
  destruct (spamPrelude_ok w config li Hli) as (_ & _ & _ & _ & _ & _ & Htps & _).
  unfold U64.in_range in Ht. lia.
Qed.

End PreludeMore.

(** X16: a run logs "Failed to send transaction" once for every attempt
    that returned an error, with that error and in the order of the
    attempts, and never otherwise. *)
Theorem failure_logged_for_each_failed_attempt
    (w : World) (config : Config) (events : list Event) :
  failureLogs (spamTransactions w config events).1
  = omap attemptError (attempts (spamTransactions w config events).1).
Proof.
  unfold spamTransactions.
  destruct (spamPrelude_quiet w config) as (Hf & _).
  destruct (spamPrelude_no_submission w config) as (_ & Ha).
  destruct (spamPrelude w config) as [t [li | e | m]]; cbn [fst snd] in *.
  - unfold after. cbn [fst]. rewrite failureLogs_app, attempts_app, Hf, Ha.
    apply loop_failureLogs.
  - rewrite Hf, Ha. reflexivity.
  - rewrite Hf, Ha. reflexivity.
Qed.

(** X17: once the loop is reached, nothing but cancellation ends a run
    (in heavy mode: a run whose output slice can be allocated): whatever
    the outcomes of the sends, the run is still waiting unless a
    cancellation was among the events, and then it has returned [nil]. *)
Theorem only_cancellation_ends_the_loop
    (w : World) (config : Config) (li : LoopInputs) (events : list Event) :
  World_wf w -> Config_wf config -> heavy_allocatable config ->
  (spamPrelude w config).2 = Ok li ->
  (spamTransactions w config events).2
  = if existsb isDone events then Returned None else Running.
Proof.
  intros Hw Hc Halloc Hli.
  destruct (spamPrelude_ok w config li Hli) as (addr & _ & Haddr & _ & _ & _ & Htps & _).
  rewrite (spamTransactions_loop w config li events Hli). unfold after. cbn [snd].
  apply (loop_status w config (li_amount li) (li_bech32Prefix li) (li_sequence li) addr events
           Hc (spamPrelude_amount_wf w config li Hw Hli) Halloc Haddr Htps).
Qed.

(** X18: the "Sent n transactions" lines of a run: each names a positive
    multiple of the rate that the count of accepted transactions has
    reached, together with the configured rate, and there are as many lines
    as multiples of the rate up to that count. *)
Theorem milestone_every_rate_acceptances
    (w : World) (config : Config) (li : LoopInputs) (events : list Event) :
  Config_wf config ->
  (spamPrelude w config).2 = Ok li ->
  Z.of_nat (acceptedCount (attempts (spamTransactions w config events).1)) < U64.modulus ->
  Forall (fun m =>
            m.2 = TPS config
            /\ 0 < m.1 <= Z.of_nat (acceptedCount
                                      (attempts (spamTransactions w config events).1))
            /\ m.1 mod TPS config = 0)
    (milestones (spamTransactions w config events).1)
  /\ Z.of_nat (List.length (milestones (spamTransactions w config events).1))
     = Z.of_nat (acceptedCount (attempts (spamTransactions w config events).1))
       / TPS config.
Proof.
  intros Hc Hli.
  pose proof (spamPrelude_rate_positive w config li Hc Hli) as HT.
  rewrite (spamTransactions_attempts w config li events Hli).
  rewrite (spamTransactions_loop w config li events Hli). unfold after. cbn [fst].
  rewrite milestones_app.
  destruct (spamPrelude_quiet w config) as (_ & -> & _). cbn [app].
  intros Hbound.
  destruct (loop_milestones w config (li_amount li) (li_bech32Prefix li) (li_sequence li)
              events HT 0 ltac:(lia) ltac:(lia)) as [Hall Hlen].
  rewrite Z.add_0_l, Z.div_0_l, Z.sub_0_r in Hlen by lia.
  split; [| exact Hlen].
  eapply Forall_impl; [exact Hall |]. cbn. intros m (Ht & Hr & Hm).
  split_and!; try assumption; lia.
Qed.

(** X19: every attempt of a run creates its transaction from the same
    message and the same options (memo, fees and gas limit of the
    configuration): nothing in a transaction but its sequence number
    changes from one attempt to the next. *)
Theorem every_attempt_creates_same_transaction
    (w : World) (config : Config) (li : LoopInputs) (addr : string) (msg : Msg)
    (events : list Event) :
  (spamPrelude w config).2 = Ok li ->
  w_accountAddress w (li_bech32Prefix li) = Ok addr ->
  (if Heavy config then heavyMultiSend config (li_amount li) addr
   else Ok (MsgSend addr addr (li_amount li))) = Ok msg ->
  createdTxs (spamTransactions w config events).1
  = replicate (List.length (attempts (spamTransactions w config events).1))
      (txOptions config, msg).
Proof.
  intros Hli Haddr Hmsg.
  rewrite (spamTransactions_attempts w config li events Hli).
  rewrite (spamTransactions_loop w config li events Hli). unfold after. cbn [fst].
  rewrite createdTxs_app.
  destruct (spamPrelude_quiet w config) as (_ & _ & -> & _). cbn [app].
  apply (loop_createdTxs w config (li_amount li) (li_bech32Prefix li) (li_sequence li)
           addr msg events Haddr Hmsg).
Qed.

(** X20: the ticker started before the loop is stopped exactly once when
    the run ends, by return or by panic, and not while the run is waiting
    (the deferred [ticker.Stop]). *)
Theorem ticker_stopped_when_run_ends
    (w : World) (config : Config) (li : LoopInputs) (events : list Event) :
  (spamPrelude w config).2 = Ok li ->
  tickerStops (spamTransactions w config events).1
  = match (spamTransactions w config events).2 with
    | Running => []
    | _ => [ETickerStop]
    end.
Proof.
  intros Hli.
  rewrite (spamTransactions_loop w config li events Hli). unfold after. cbn [fst snd].
  rewrite tickerStops_app.
  destruct (spamPrelude_quiet w config) as (_ & _ & _ & ->). cbn [app].
  apply loop_tickerStops.
Qed.

(** X21: when the account is not found on chain, the run returns
    "account verification failed" wrapping the query's error, after one
    query and before the sequence is fetched or anything is submitted. *)
Theorem unfunded_account_stops_run
    (w : World) (config : Config) (info : string * string) (home addr : string)
    (err : error) (events : list Event) :
  w_getChainInfo w (Chain config) = Ok info ->
  w_getKeyringHome w = Ok home ->
  w_cosmosclientNew w (if String.eqb (RPC config) "" then info.1 else RPC config)
    (Fees config) info.2 home = Ok tt ->
  w_clientAccount w (Account config) = Ok tt ->
  w_accountAddress w info.2 = Ok addr ->
  w_queryAccount w 0%nat addr = Err err ->
  spamTransactions w config events
  = ([ELog (if String.eqb (RPC config) "" then LogRegistryRPC info.1
            else LogCustomRPC (RPC config));
      EVerifyAccountQuery addr],
     Returned (Some (Errorf "account verification failed"
                       (Errorf "account not found on blockchain - please fund this account first"
                          err)))).
Proof.
  intros Hinfo Hhome Hnew Hacc Haddr Hquery.
  unfold spamTransactions, spamPrelude, verifyAccountExists.
  destruct info as [rpc prefix]. cbn [fst snd] in *.
  destruct (String.eqb (RPC config) ""); cbn -[parseAmount tickerInterval];
    rewrite Hinfo; cbn -[parseAmount tickerInterval];
    rewrite Hhome; cbn -[parseAmount tickerInterval];
    rewrite Hnew; cbn -[parseAmount tickerInterval];
    rewrite Hacc; cbn -[parseAmount tickerInterval];
    rewrite Haddr; cbn -[parseAmount tickerInterval];
    rewrite Hquery; reflexivity.
Qed.

(** X22: a custom RPC endpoint does not spare the chain registry: with
    [RPC] set, a failing chain lookup ends the run right after the line
    that announces the custom endpoint. *)
Theorem custom_rpc_still_needs_registry
    (w : World) (config : Config) (err : error) (events : list Event) :
  RPC config <> "" ->
  w_getChainInfo w (Chain config) = Err err ->
  spamTransactions w config events
  = ([ELog (LogCustomRPC (RPC config))],
     Returned (Some (Errorf "failed to get chain info for bech32 prefix" err))).
Proof.
  intros Hrpc Hinfo. unfold spamTransactions, spamPrelude.
  destruct (String.eqb_spec (RPC config) "") as [Heq | _]; [contradiction |].
  cbn -[parseAmount tickerInterval]. rewrite Hinfo. reflexivity.
Qed.

(** X23: a rate above 1000000000 leaves no positive interval for the
    ticker: such a run never reaches its loop, submits nothing, and ends
    with an error or a panic whatever the events. *)
Theorem rate_above_nanoseconds_never_runs
    (w : World) (config : Config) (events : list Event) :
  1000000000 < TPS config < U64.modulus ->
  (spamTransactions w config events).1 = (spamPrelude w config).1
  /\ attempts (spamTransactions w config events).1 = []
  /\ (spamTransactions w config events).2 <> Running
  /\ (spamTransactions w config events).2 <> Returned None.
Proof.
  intros Hrate.
  assert (Hfail : forall li, (spamPrelude w config).2 <> Ok li).
  { intros li Hli. pose proof (spamPrelude_trace_shape w config) as Hshape.
    rewrite Hli in Hshape.
    destruct Hshape as (_ & _ & interval & _ & _ & _ & Hint & Hpos & _).
    destruct (tickerInterval_too_fast (TPS config) Hrate) as (interval' & Hint' & Hneg).
    rewrite Hint in Hint'. injection Hint' as <-. lia. }
  destruct (spamTransactions_stops_early w config events Hfail) as (Ht & Hr & Hn).
  split_and!; try assumption.
  rewrite Ht. apply spamPrelude_no_submission.
Qed.

(** X24: what a run has done when it reaches its loop, in order: one log
    line for the endpoint (the custom one if set, else the registry's), the
    query that verifies the account, the query that fetches its sequence,
    the log line with that sequence, and the start of a ticker with a
    positive interval. *)
Theorem prelude_trace_in_order
    (w : World) (config : Config) (li : LoopInputs) :
  (spamPrelude w config).2 = Ok li ->
  exists info addr interval,
    w_getChainInfo w (Chain config) = Ok info
    /\ li_bech32Prefix li = info.2
    /\ w_accountAddress w (li_bech32Prefix li) = Ok addr
    /\ tickerInterval (TPS config) = Ok interval
    /\ 0 < interval
    /\ (spamPrelude w config).1
       = [ELog (if String.eqb (RPC config) "" then LogRegistryRPC info.1
                else LogCustomRPC (RPC config));
          EVerifyAccountQuery addr;
          EFetchSequenceQuery addr;
          ELog (LogCurrentSequence (li_sequence li));
          ETickerStart interval].
Proof.
  intros Hli. pose proof (spamPrelude_trace_shape w config) as Hshape.
  rewrite Hli in Hshape. exact Hshape.
Qed.

(** X25: an amount that [parseAmount] returns is never zero: it has at
    least one coin and some coin of it has a non-zero amount; the string
    was not empty and is what the SDK parsed. *)
Theorem parseAmount_never_zero (w : World) (amountStr : string) (coins : sdk.Coins) :
  parseAmount w amountStr = Ok coins ->
  amountStr <> ""
  /\ w_ParseCoinsNormalized w amountStr = Ok coins
  /\ coins <> []
  /\ Exists (fun c => sdk.Amount c <> 0) coins.
Proof.
  unfold parseAmount.
  destruct (String.eqb_spec amountStr "") as [| Hne]; [discriminate |].
  destruct (w_ParseCoinsNormalized w amountStr) as [parsed | e | m]; [| discriminate ..].
  destruct (sdk.IsZero parsed) eqn:Hz; [discriminate |].
  intros [= <-]. split_and!; try done.
  - intros ->. discriminate Hz.
  - apply CoinFacts.IsZero_false. exact Hz.
Qed.

(** ** The properties on sample data *)

Lemma sampleFind_added k name : sampleFind (k ++ [name]) name = true.
Proof.
  induction k as [| n rest IH]; cbn.
  - rewrite String.eqb_refl. reflexivity.
  - rewrite IH. apply orb_true_r.
Qed.

Lemma sampleFind_removed k name : sampleFind (sampleRemove k name) name = false.
Proof.
  induction k as [| n rest IH]; cbn; [reflexivity |].
  destruct (String.eqb n name) eqn:Hn; [exact IH |].
  cbn. rewrite Hn, IH. reflexivity.
Qed.

(** The sample keyring keeps the laws of a registry. *)
Lemma sampleRegistryLaws : RegistryLaws (list string).
Proof.
  split.
  - intros k name k' account mnemonic. cbn.
    destruct (sampleFind k name); intros [= <- <- <-].
    rewrite sampleFind_added. reflexivity.
  - intros k name secret passphrase k' account. cbn.
    destruct (sampleFind k name); intros [= <- <-].
    rewrite sampleFind_added. reflexivity.
  - intros k name k'. cbn.
    destruct (sampleFind k name); intros [= <-].
    exists name. rewrite sampleFind_removed. reflexivity.
Qed.

(** A name of one byte is refused before the keyring is touched. *)
Lemma invalid_name_touches_nothing_witness :
  validateAccountName "a"
  = Some (errorsNew "account name must be at least 2 characters long")
  /\ getOrCreateAccount "a" ["bob"]
     = (["bob"], [], inr (errorsNew "account name must be at least 2 characters long"))
  /\ deleteAccount "a" ["bob"]
     = (["bob"], [], inr (errorsNew "account name must be at least 2 characters long")).
Proof.
  split; [reflexivity |].
  destruct (invalid_name_touches_nothing "a"
              (errorsNew "account name must be at least 2 characters long") ["bob"] eq_refl)
    as (Hget & _ & Hdel).
  split; [exact Hget | exact Hdel].
Defined.

(** Two accounts are listed as 1 and 2. *)
Lemma listAccounts_numbers_every_account_witness :
  reg_List ["alice"; "bob"] = inl [sampleAccount "alice"; sampleAccount "bob"]
  /\ [sampleAccount "alice"; sampleAccount "bob"] <> []
  /\ exists lines,
       listAccounts "cosmos" ["alice"; "bob"]
       = (["alice"; "bob"],
          KCall CallList :: map KPrint (LineFound 2 :: lines), inl tt)
       /\ lines !! 1%nat = Some (LineAccount 2 "bob" "cosmos1bob").
Proof.
  split; [reflexivity |]. split; [discriminate |].
  destruct (@listAccounts_numbers_every_account (list string) sampleRegistry "cosmos" ["alice"; "bob"]
              [sampleAccount "alice"; sampleAccount "bob"]
              ltac:(reflexivity) ltac:(discriminate))
    as (lines & Hrun & _ & Hlines).
  exists lines. split; [exact Hrun |].
  exact (Hlines 1%nat (sampleAccount "bob") ltac:(reflexivity)).
Defined.

(** Creating alice, then asking for alice again. *)
Lemma getOrCreateAccount_twice_witness :
  getOrCreateAccount "alice" []
  = (["alice"],
     [KCall (CallGetByName "alice"); KPrint (LineNotFoundCreating "alice");
      KCall (CallCreate "alice"); KPrint (LineCreated "alice");
      KPrint (LineMnemonic "abandon ability able"); KPrint LineSaveMnemonic],
     inl (sampleAccount "alice", true))
  /\ getOrCreateAccount "alice" ["alice"]
     = (["alice"], [KCall (CallGetByName "alice")], inl (sampleAccount "alice", false)).
Proof.
  split; [reflexivity |].
  exact (@getOrCreateAccount_twice (list string) sampleRegistry sampleRegistryLaws
           "alice" [] ["alice"] _ (sampleAccount "alice") true ltac:(reflexivity)).
Defined.

(** Deleting alice, then deleting alice again. *)
Lemma deleteAccount_twice_witness :
  deleteAccount "alice" ["alice"; "bob"]
  = (["bob"],
     [KCall (CallGetByName "alice"); KCall (CallDeleteByName "alice");
      KPrint (LineDeleted "alice")],
     inl tt)
  /\ deleteAccount "alice" ["bob"]
     = (["bob"], [KCall (CallGetByName "alice")], inr (errorsNew "account does not exist")).
Proof.
  split; [reflexivity |].
  exact (@deleteAccount_twice (list string) sampleRegistry sampleRegistryLaws
           "alice" ["alice"; "bob"] ["bob"] _ ltac:(reflexivity)).
Defined.

(** Importing carol and asking for her address under the empty prefix. *)
Lemma importAccount_keeps_account_on_address_error_witness :
  validateAccountName "carol" = None
  /\ "abandon ability able" <> ""
  /\ reg_Import ["bob"] "carol" "abandon ability able" ""
     = (["bob"; "carol"], inl (sampleAccount "carol"))
  /\ acc_Address (sampleAccount "carol") "" = inr (errorsNew "empty prefix")
  /\ importAccount "carol" "abandon ability able" "" "" ["bob"]
     = (["bob"; "carol"], [KCall (CallImport "carol" "abandon ability able" "")],
        inr (Errorf "failed to get account address" (errorsNew "empty prefix")))
  /\ reg_GetByName ["bob"; "carol"] "carol" = inl (sampleAccount "carol").
Proof.
  split; [reflexivity |]. split; [discriminate |].
  split; [reflexivity |]. split; [reflexivity |].
  exact (@importAccount_keeps_account_on_address_error (list string) sampleRegistry
           sampleRegistryLaws "carol" "abandon ability able" "" "" ["bob"] ["bob"; "carol"]
           (sampleAccount "carol") (errorsNew "empty prefix")
           ltac:(reflexivity) ltac:(discriminate) ltac:(reflexivity) ltac:(reflexivity)).
Defined.

(** A gas limit of 500000 gives 30 outputs. *)
Lemma calculateAddressCount_fits_gas_witness :
  HeavyAddressCount (heavyConfig 0 500000) = 0
  /\ 65000 <= GasLimit (heavyConfig 0 500000) < U64.modulus
  /\ calculateAddressCount (heavyConfig 0 500000) = 30
  /\ 1 <= calculateAddressCount (heavyConfig 0 500000)
  /\ 50000 + 15000 * calculateAddressCount (heavyConfig 0 500000)
     <= GasLimit (heavyConfig 0 500000)
  /\ GasLimit (heavyConfig 0 500000)
     < 50000 + 15000 * (calculateAddressCount (heavyConfig 0 500000) + 1).
Proof.
  split; [reflexivity |]. split; [vm_compute; split; [discriminate | reflexivity] |].
  split; [reflexivity |].
  exact (calculateAddressCount_fits_gas (heavyConfig 0 500000) ltac:(reflexivity)
           ltac:(vm_compute; split; [discriminate | reflexivity])).
Defined.

Lemma sampleAmount_wf : sdk.Coins_wf [stake 5; uatom 1000].
Proof. repeat constructor; apply sample_coin_wf; (reflexivity || lia). Qed.

(** 1000uatom and 5stake over 30 outputs: 990uatom and 0stake are moved. *)
Lemma heavy_total_rounds_down_witness :
  Config_wf (heavyConfig 0 500000)
  /\ sdk.Coins_wf [stake 5; uatom 1000]
  /\ calculateAddressCount (heavyConfig 0 500000) <= maxOutputs
  /\ Exists (fun c => 0 < sdk.Amount c / calculateAddressCount (heavyConfig 0 500000))
       [stake 5; uatom 1000]
  /\ exists input outputs,
       heavyMultiSend (heavyConfig 0 500000) [stake 5; uatom 1000] "cosmos1alice"
       = Ok (MsgMultiSend [input] outputs)
       /\ in_Coins input = [stake 0; uatom 990].
Proof.
  assert (Hc : Config_wf (heavyConfig 0 500000))
    by (apply heavyConfig_wf; apply small_in_range; lia).
  assert (Hex : Exists (fun c => 0 < sdk.Amount c / calculateAddressCount (heavyConfig 0 500000))
                  [stake 5; uatom 1000])
    by (right; left; vm_compute; reflexivity).
  assert (Halloc : calculateAddressCount (heavyConfig 0 500000) <= maxOutputs)
    by (vm_compute; discriminate).
  split; [exact Hc |]. split; [exact sampleAmount_wf |]. split; [exact Halloc |].
  split; [exact Hex |].
  destruct (heavy_total_rounds_down (heavyConfig 0 500000) [stake 5; uatom 1000]
              "cosmos1alice" Hc sampleAmount_wf Halloc Hex)
    as (input & outputs & Hmsg & Hin & _).
  exists input, outputs. split; [exact Hmsg |]. rewrite Hin. reflexivity.
Defined.

(** 5uatom over 30 outputs: the fallback of one unit each. *)
Lemma heavy_outputs_never_zero_witness :
  sdk.Coins_wf [uatom 5]
  /\ sdk.IsZero [uatom 5] = false
  /\ exists perOutput,
       heavyAmountPerOutput (calculateAddressCount (heavyConfig 0 500000)) [uatom 5]
       = Ok perOutput
       /\ sdk.IsZero perOutput = false.
Proof.
  assert (Ha : sdk.Coins_wf [uatom 5])
    by (repeat constructor; apply sample_coin_wf; (reflexivity || lia)).
  split; [exact Ha |]. split; [reflexivity |].
  exact (heavy_outputs_never_zero (heavyConfig 0 500000) [uatom 5] Ha ltac:(reflexivity)).
Defined.

(** Three transactions per second: a tick every 333333333 ns. *)
Lemma tickerInterval_positive_witness :
  1 <= 3 <= 1000000000
  /\ tickerInterval 3 = Ok 333333333
  /\ NewTicker 333333333 = ([ETickerStart 333333333], Ok tt).
Proof.
  split; [lia |].
  destruct (tickerInterval_positive 3 ltac:(lia)) as (Hint & _ & _ & Hnew).
  split; [exact Hint | exact Hnew].
Defined.

(** A heavy run of ten outputs, two failures between two acceptances and
    no cancellation: still running. *)
Lemma only_cancellation_ends_the_loop_witness :
  World_wf sampleWorld /\ Config_wf (heavyConfig 0 0)
  /\ heavy_allocatable (heavyConfig 0 0)
  /\ (spamPrelude sampleWorld (heavyConfig 0 0)).2 = Ok sampleInputs
  /\ (spamTransactions sampleWorld (heavyConfig 0 0) sampleTicks).2 = Running
  /\ (spamTransactions sampleWorld (heavyConfig 0 0) (sampleTicks ++ [Done])).2
     = Returned None.
Proof.
  assert (Hc : Config_wf (heavyConfig 0 0)) by (apply heavyConfig_wf; apply small_in_range; lia).
  assert (Halloc : heavy_allocatable (heavyConfig 0 0))
    by (intros _; exact default_count_allocatable).
  split; [exact sampleWorld_wf |]. split; [exact Hc |]. split; [exact Halloc |].
  split; [reflexivity |].
  split.
  - exact (only_cancellation_ends_the_loop sampleWorld (heavyConfig 0 0) sampleInputs
             sampleTicks sampleWorld_wf Hc Halloc eq_refl).
  - vm_compute. reflexivity.
Defined.

(** Six acceptances at a rate of 5: one line, for the fifth. *)
Lemma milestone_every_rate_acceptances_witness :
  Config_wf simpleConfig
  /\ (spamPrelude sampleWorld simpleConfig).2 = Ok sampleInputs
  /\ acceptedCount
       (attempts (spamTransactions sampleWorld simpleConfig
                    (sampleTicks ++ sampleTicks ++ sampleTicks)).1) = 6%nat
  /\ milestones (spamTransactions sampleWorld simpleConfig
                   (sampleTicks ++ sampleTicks ++ sampleTicks)).1 = [(5, 5)]
  /\ Z.of_nat (List.length
                 (milestones (spamTransactions sampleWorld simpleConfig
                                (sampleTicks ++ sampleTicks ++ sampleTicks)).1))
     = Z.of_nat (acceptedCount
                   (attempts (spamTransactions sampleWorld simpleConfig
                                (sampleTicks ++ sampleTicks ++ sampleTicks)).1))
       / TPS simpleConfig.
Proof.
  split; [exact simpleConfig_wf |]. split; [reflexivity |].
  split; [vm_compute; reflexivity |]. split; [vm_compute; reflexivity |].
  destruct (milestone_every_rate_acceptances sampleWorld simpleConfig sampleInputs
              (sampleTicks ++ sampleTicks ++ sampleTicks) simpleConfig_wf eq_refl
              ltac:(vm_compute; reflexivity)) as [_ Hlen].
  exact Hlen.
Defined.

(** Four attempts in simple mode: four times the same self-transfer. *)
Lemma every_attempt_creates_same_transaction_witness :
  (spamPrelude sampleWorld simpleConfig).2 = Ok sampleInputs
  /\ w_accountAddress sampleWorld (li_bech32Prefix sampleInputs) = Ok "cosmos1alice"
  /\ createdTxs (spamTransactions sampleWorld simpleConfig sampleTicks).1
     = replicate
         (List.length (attempts (spamTransactions sampleWorld simpleConfig sampleTicks).1))
         (txOptions simpleConfig, MsgSend "cosmos1alice" "cosmos1alice" [uatom 1000])
  /\ List.length (attempts (spamTransactions sampleWorld simpleConfig sampleTicks).1) = 4%nat.
Proof.
  split; [reflexivity |]. split; [reflexivity |].
  split; [| vm_compute; reflexivity].
  exact (every_attempt_creates_same_transaction sampleWorld simpleConfig sampleInputs
           "cosmos1alice" (MsgSend "cosmos1alice" "cosmos1alice" [uatom 1000]) sampleTicks
           eq_refl eq_refl eq_refl).
Defined.

(** One stop after the cancellation, none before. *)
Lemma ticker_stopped_when_run_ends_witness :
  (spamPrelude sampleWorld simpleConfig).2 = Ok sampleInputs
  /\ tickerStops (spamTransactions sampleWorld simpleConfig sampleTicks).1 = []
  /\ tickerStops (spamTransactions sampleWorld simpleConfig (sampleTicks ++ [Done])).1
     = match (spamTransactions sampleWorld simpleConfig (sampleTicks ++ [Done])).2 with
       | Running => []
       | _ => [ETickerStop]
       end
  /\ (spamTransactions sampleWorld simpleConfig (sampleTicks ++ [Done])).2 = Returned None.
Proof.
  split; [reflexivity |]. split; [vm_compute; reflexivity |].
  split; [| vm_compute; reflexivity].
  exact (ticker_stopped_when_run_ends sampleWorld simpleConfig sampleInputs
           (sampleTicks ++ [Done]) eq_refl).
Defined.

(** An account that was never funded. *)
Lemma unfunded_account_stops_run_witness :
  w_getChainInfo unfundedWorld (Chain simpleConfig)
  = Ok ("https://rpc.cosmos.example:443", "cosmos")
  /\ w_queryAccount unfundedWorld 0%nat "cosmos1alice" = Err (errorsNew "account not found")
  /\ spamTransactions unfundedWorld simpleConfig sampleTicks
     = ([ELog (LogRegistryRPC "https://rpc.cosmos.example:443");
         EVerifyAccountQuery "cosmos1alice"],
        Returned (Some (Errorf "account verification failed"
                          (Errorf "account not found on blockchain - please fund this account first"
                             (errorsNew "account not found"))))).
Proof.
  split; [reflexivity |]. split; [reflexivity |].
  exact (unfunded_account_stops_run unfundedWorld simpleConfig
           ("https://rpc.cosmos.example:443", "cosmos") "/home/alice/.spamtx" "cosmos1alice"
           (errorsNew "account not found") sampleTicks
           eq_refl eq_refl eq_refl eq_refl eq_refl eq_refl).
Defined.

(** A local node, and a chain registry that cannot be reached. *)
Lemma custom_rpc_still_needs_registry_witness :
  RPC customRPCConfig <> ""
  /\ w_getChainInfo noRegistryWorld (Chain customRPCConfig)
     = Err (errorsNew "failed to fetch chains")
  /\ spamTransactions noRegistryWorld customRPCConfig sampleTicks
     = ([ELog (LogCustomRPC "http://localhost:26657")],
        Returned (Some (Errorf "failed to get chain info for bech32 prefix"
                          (errorsNew "failed to fetch chains")))).
Proof.
  split; [discriminate |]. split; [reflexivity |].
  exact (custom_rpc_still_needs_registry noRegistryWorld customRPCConfig
           (errorsNew "failed to fetch chains") sampleTicks
           ltac:(discriminate) eq_refl).
Defined.

(** Two transactions per nanosecond pass validation and then panic. *)
Lemma rate_above_nanoseconds_never_runs_witness :
  1000000000 < TPS tooFastConfig < U64.modulus
  /\ validateConfig tooFastConfig = None
  /\ (spamTransactions sampleWorld tooFastConfig sampleTicks).2
     = Panicked "non-positive interval for NewTicker"
  /\ attempts (spamTransactions sampleWorld tooFastConfig sampleTicks).1 = []
  /\ (spamTransactions sampleWorld tooFastConfig sampleTicks).2 <> Running.
Proof.
  assert (Hrate : 1000000000 < TPS tooFastConfig < U64.modulus)
    by (vm_compute; split; reflexivity).
  split; [exact Hrate |]. split; [reflexivity |]. split; [vm_compute; reflexivity |].
  destruct (rate_above_nanoseconds_never_runs sampleWorld tooFastConfig sampleTicks Hrate)
    as (_ & Hatt & Hrun & _).
  split; [exact Hatt | exact Hrun].
Defined.

(** The five steps before the loop in the sample world. *)
Lemma prelude_trace_in_order_witness :
  (spamPrelude sampleWorld simpleConfig).2 = Ok sampleInputs
  /\ (spamPrelude sampleWorld simpleConfig).1
     = [ELog (LogRegistryRPC "https://rpc.cosmos.example:443");
        EVerifyAccountQuery "cosmos1alice";
        EFetchSequenceQuery "cosmos1alice";
        ELog (LogCurrentSequence 7);
        ETickerStart 200000000]
  /\ exists info addr interval,
       w_getChainInfo sampleWorld (Chain simpleConfig) = Ok info
       /\ li_bech32Prefix sampleInputs = info.2
       /\ w_accountAddress sampleWorld (li_bech32Prefix sampleInputs) = Ok addr
       /\ tickerInterval (TPS simpleConfig) = Ok interval
       /\ 0 < interval
       /\ (spamPrelude sampleWorld simpleConfig).1
          = [ELog (if String.eqb (RPC simpleConfig) "" then LogRegistryRPC info.1
                   else LogCustomRPC (RPC simpleConfig));
             EVerifyAccountQuery addr;
             EFetchSequenceQuery addr;
             ELog (LogCurrentSequence (li_sequence sampleInputs));
             ETickerStart interval].
Proof.
  split; [reflexivity |]. split; [vm_compute; reflexivity |].
  exact (prelude_trace_in_order sampleWorld simpleConfig sampleInputs eq_refl).
Defined.

(** The fee string of the samples parses to 1000 uatom. *)
Lemma parseAmount_never_zero_witness :
  parseAmount sampleWorld "1000uatom" = Ok [uatom 1000]
  /\ "1000uatom" <> ""
  /\ w_ParseCoinsNormalized sampleWorld "1000uatom" = Ok [uatom 1000]
  /\ [uatom 1000] <> []
  /\ Exists (fun c => sdk.Amount c <> 0) [uatom 1000].
Proof.
  split; [reflexivity |].
  exact (parseAmount_never_zero sampleWorld "1000uatom" [uatom 1000] eq_refl).
Defined.

(** ** Heavy mode beyond what can be allocated *)

(** X26: a heavy run without override and with a gas limit from 1 to
    49999 (where the count wraps instead of falling back to 10) panics in
    [make] at its first pulse, whatever the node would have answered: the
    attempt ends in the panic before a transaction is created or
    broadcast, the ticker is stopped, and later events are not looked at. *)
Theorem heavy_low_gas_panics_in_make
    (w : World) (config : Config) (li : LoopInputs) (r : SubmitResult)
    (events : list Event) :
  World_wf w -> Config_wf config ->
  Heavy config = true ->
  HeavyAddressCount config = 0 ->
  0 < GasLimit config < 50000 ->
  (spamPrelude w config).2 = Ok li ->
  spamTransactions w config (Tick r :: events)
  = ((spamPrelude w config).1
     ++ [EAttempt true 0 (li_sequence li)
           (Panic "runtime error: makeslice: len out of range");
         ETickerStop],
     Panicked "runtime error: makeslice: len out of range").
Proof.
  intros Hw Hc Hheavy Hov Hgas Hli.
  destruct (spamPrelude_ok w config li Hli) as (addr & resp & Haddr & Hquery & Hseq & _).
  destruct (calculateAddressCount_borrow config Hov Hgas) as [_ Hbig].
  assert (Hpanic : heavyMultiSend config (li_amount li) addr
                   = Panic "runtime error: makeslice: len out of range").
  { apply heavyMultiSend_beyond_alloc;
      [exact Hc | exact (spamPrelude_amount_wf w config li Hw Hli) |].
    change maxOutputs with 7036874417766. lia. }
  assert (Hadd : U64.add (li_sequence li) 0 = li_sequence li).
  { pose proof (proj1 Hw _ _ _ _ Hquery Hseq) as Hrange. unfold U64.in_range in Hrange.
    rewrite U64Facts.add_small by lia. lia. }
  assert (Hsend : sendHeavyTransaction w config (li_amount li) 0 (li_bech32Prefix li)
                    (Memo config) (li_sequence li) r
                  = ([], Panic "runtime error: makeslice: len out of range")).
  { unfold sendHeavyTransaction. rewrite Haddr. cbn. rewrite Hpanic. reflexivity. }
  rewrite (spamTransactions_loop w config li _ Hli). unfold after.
  rewrite loop_tick_status, loop_tick_trace, Hheavy, Hadd, Hsend. reflexivity.
Qed.

(** A heavy run with a gas limit of 40000: 1229782938247302 outputs. *)
Lemma heavy_low_gas_panics_in_make_witness :
  World_wf sampleWorld /\ Config_wf (heavyConfig 0 40000)
  /\ Heavy (heavyConfig 0 40000) = true
  /\ HeavyAddressCount (heavyConfig 0 40000) = 0
  /\ 0 < GasLimit (heavyConfig 0 40000) < 50000
  /\ (spamPrelude sampleWorld (heavyConfig 0 40000)).2 = Ok sampleInputs
  /\ calculateAddressCount (heavyConfig 0 40000) = 1229782938247302
  /\ spamTransactions sampleWorld (heavyConfig 0 40000) [Tick (acceptedAs "A1"); Done]
     = ((spamPrelude sampleWorld (heavyConfig 0 40000)).1
        ++ [EAttempt true 0 7 (Panic "runtime error: makeslice: len out of range");
            ETickerStop],
        Panicked "runtime error: makeslice: len out of range").
Proof.
  assert (Hc : Config_wf (heavyConfig 0 40000))
    by (apply heavyConfig_wf; apply small_in_range; lia).
  assert (Hgas : 0 < GasLimit (heavyConfig 0 40000) < 50000) by (cbn; lia).
  split; [exact sampleWorld_wf |]. split; [exact Hc |]. split; [reflexivity |].
  split; [reflexivity |]. split; [exact Hgas |]. split; [reflexivity |].
  split; [vm_compute; reflexivity |].
  exact (heavy_low_gas_panics_in_make sampleWorld (heavyConfig 0 40000) sampleInputs
           (acceptedAs "A1") [Done] sampleWorld_wf Hc eq_refl eq_refl Hgas eq_refl).
Defined.
